(** * Credential cache with a self-scheduling refresh timer

    A shallow embedding of the webapp's credential module
    ([setAwsCredentials], [getAwsCredentialsFromStorage],
    [hasValidAwsCredentials], [fetchCredentialsFromApi],
    [getValidAwsCredentials], [startCredentialRefreshTimer], [logout]) and of
    [getParamValue] from its configuration module.

    The module is JavaScript running on one event loop.  Its synchronous
    functions are functions in a state-and-exception monad over [state];
    each [async] function is split at its one real suspension point (the
    network round trip) into the part that runs up to the [await] and the
    part that runs when the reply arrives; the event loop is the step
    function [step] over [event]s.

    What the state holds of the platform: the one localStorage item the
    module uses, the pending timers with the delay each was armed with, the
    requests on the network with who awaits each, the console, the clock,
    and counters of the calls of [fetch] and of [window.location.reload].
    A pending timer may run out at any turn and a reply may arrive at any
    turn, so every interleaving the event loop allows is a run of [step].
    The two awaits of [fetchCredentialsFromApi] ([fetch] and
    [response.json]) are one suspension: the module touches nothing between
    them. *)

From Stdlib Require Import ZArith List String Ascii Bool Lia DecimalString.
Import ListNotations.
Local Open Scope string_scope.
Local Open Scope Z_scope.
Set Warnings "-register-all".

(** ** JavaScript values *)

(** A Number restricted to what the module computes with: an integer, or
    NaN ([None]).  Times are milliseconds since the epoch. *)
Definition number := option Z.
Definition NaN : number := None.

(** JSON data, as [JSON.parse] returns it.  Numbers are the integral ones
    that a Number holds exactly; an object's members are listed with the
    first entry of a key being the member. *)
Inductive json :=
| JNull
| JBool (b : bool)
| JNum (n : Z)
| JStr (s : string)
| JArr (items : list json)
| JObj (members : list (string * json)).

(** The values the module handles: [undefined], JSON data, a [Date], and an
    object the module itself builds with an object literal. *)
Inductive value :=
| VUndefined
| VJson (j : json)
| VDate (t : number)
| VObj (members : list (string * value)).

(** What a [throw] carries: [new Error(message)] of the module itself, or one
    of the platform's own errors. *)
Inductive error :=
| Error (message : string)
| TypeError
| SyntaxError
| RangeError.

Inductive result (A : Type) :=
| Ok (a : A)
| Throw (e : error).
Arguments Ok {A} a.
Arguments Throw {A} e.

Definition bind_result {A B} (r : result A) (k : A -> result B) : result B :=
  match r with
  | Ok a => k a
  | Throw e => Throw e
  end.

(** [x == null] *)
Definition eq_null (v : value) : bool :=
  match v with
  | VUndefined | VJson JNull => true
  | _ => false
  end.

(** ToBoolean: what [!x] and [if (x)] look at. *)
Definition truthy (v : value) : bool :=
  match v with
  | VUndefined | VJson JNull => false
  | VJson (JBool b) => b
  | VJson (JNum n) => negb (n =? 0)
  | VJson (JStr s) => negb (String.eqb s "")
  | VJson (JArr _) | VJson (JObj _) | VDate _ | VObj _ => true
  end.

Fixpoint lookup {A : Type} (k : string) (members : list (string * A)) : option A :=
  match members with
  | [] => None
  | (k', v) :: rest => if String.eqb k k' then Some v else lookup k rest
  end.

Definition has_own {A : Type} (k : string) (members : list (string * A)) : bool :=
  match lookup k members with
  | Some _ => true
  | None => false
  end.

(** A member read off an object: [undefined] when the object has none by
    that name. *)
Definition member (v : value) (k : string) : value :=
  match v with
  | VObj members =>
      match lookup k members with
      | Some x => x
      | None => VUndefined
      end
  | VJson (JObj members) =>
      match lookup k members with
      | Some j => VJson j
      | None => VUndefined
      end
  | _ => VUndefined
  end.

(** [v.k], for a key that no prototype defines (the module reads
    accessKeyId, secretAccessKey, sessionToken and expiration only). *)
Definition Get (v : value) (k : string) : result value :=
  match v with
  | VUndefined | VJson JNull => Throw TypeError
  | _ => Ok (member v k)
  end.

(** [v?.k] *)
Definition OptGet (v : value) (k : string) : value :=
  match v with
  | VUndefined | VJson JNull => VUndefined
  | _ => member v k
  end.

(** Number arithmetic and comparison; NaN is contagious and compares false. *)
Definition num_sub (a b : number) : number :=
  match a, b with
  | Some x, Some y => Some (x - y)
  | _, _ => NaN
  end.

Definition num_lt (a b : number) : bool :=
  match a, b with
  | Some x, Some y => x <? y
  | _, _ => false
  end.

(** [Math.floor(a / d)] for a positive integer [d]. *)
Definition num_floor_div (a : number) (d : Z) : number :=
  match a with
  | Some x => Some (x / d)
  | None => NaN
  end.

(** ** Dates *)

(** The largest time value a Date holds, 8.64e15 ms either side of the epoch. *)
Definition maxTime : Z := 8640000000000000.

Definition in_time_range (t : Z) : Prop := - maxTime <= t <= maxTime.

Definition TimeClip (t : Z) : number :=
  if (- maxTime <=? t) && (t <=? maxTime) then Some t else NaN.

(** The part of [Date] that differs between engines: [Date.parse] reads
    the format [toISOString] writes and, engine by engine, others. *)
Class DateFormat := {
  Date_parse : string -> number;
  toISOString : Z -> string;
  Date_parse_toISOString :
    forall t, in_time_range t -> Date_parse (toISOString t) = Some t;
  Date_parse_range :
    forall s t, Date_parse s = Some t -> in_time_range t;
  Date_parse_empty : Date_parse "" = NaN
}.

(** ** Conversions *)

(** Number to string, for the integers: decimal digits, as JavaScript
    prints them below 1e21. *)
Definition Number_toString (n : Z) : string :=
  NilZero.string_of_int (Z.to_int n).

(** ToString of JSON data.  An array joins its elements with commas, a
    [null] element printing as nothing.  A plain object prints through the
    inherited [toString] unless a member of its own hides it: a member is
    data, never callable, and the conversion is then a TypeError. *)
Fixpoint ToString (j : json) : result string :=
  match j with
  | JNull => Ok "null"
  | JBool b => Ok (if b then "true" else "false")
  | JNum n => Ok (Number_toString n)
  | JStr s => Ok s
  | JArr items =>
      (fix join (l : list json) : result string :=
         match l with
         | [] => Ok ""
         | x :: rest =>
             bind_result
               (match x with
                | JNull => Ok ""
                | _ => ToString x
                end)
               (fun sx =>
                  match rest with
                  | [] => Ok sx
                  | _ => bind_result (join rest)
                           (fun sr => Ok (sx ++ "," ++ sr)%string)
                  end)
         end) items
  | JObj members =>
      if has_own "toString" members then Throw TypeError
      else Ok "[object Object]"
  end.

Section Conversions.
Context {DF : DateFormat}.

(** The time value of [new Date(v)]: a Date gives its own, a string is
    parsed, an array or an object goes through its string form, anything
    else is taken as a number of milliseconds. *)
Definition Date_new (v : value) : result number :=
  match v with
  | VDate (Some t) => Ok (TimeClip t)
  | VDate None => Ok NaN
  | VUndefined => Ok NaN
  | VJson JNull => Ok (Some 0)
  | VJson (JBool b) => Ok (Some (if b then 1 else 0))
  | VJson (JNum n) => Ok (TimeClip n)
  | VJson (JStr s) => Ok (Date_parse s)
  | VJson j => bind_result (ToString j) (fun s => Ok (Date_parse s))
  | VObj members =>
      if has_own "toString" members then Throw TypeError
      else Ok (Date_parse "[object Object]")
  end.

(** [d.toISOString()], a RangeError on the Invalid Date. *)
Definition Date_toISOString (t : number) : result string :=
  match t with
  | Some z => Ok (toISOString z)
  | None => Throw RangeError
  end.

(** ** JSON *)

(** What [JSON.stringify] writes for a value, as data: [None] where it
    writes nothing ([undefined]).  A Date is written as its ISO string (the
    Invalid Date as [null]) and an [undefined] member is left out. *)
Fixpoint toJSON (v : value) : option json :=
  match v with
  | VUndefined => None
  | VJson j => Some j
  | VDate (Some t) => Some (JStr (toISOString t))
  | VDate None => Some JNull
  | VObj members =>
      Some (JObj (flat_map (fun kx => match toJSON (snd kx) with
                                      | Some j => [(fst kx, j)]
                                      | None => []
                                      end) members))
  end.

End Conversions.

(** A string that holds, or should hold, JSON text: a localStorage item, a
    response body.  The module looks at such a string through [!stored] and
    [JSON.parse] only and writes [JSON.stringify]'s output only, so the
    string is represented by what [JSON.parse] makes of it. *)
Inductive text :=
| Malformed (raw : string)   (* [JSON.parse] throws; the empty string is one *)
| Encoding (j : json).       (* [JSON.parse] returns [j] *)

Definition is_empty (t : text) : bool :=
  match t with
  | Malformed raw => String.eqb raw ""
  | Encoding _ => false
  end.

Definition JSON_parse (t : text) : result value :=
  match t with
  | Malformed _ => Throw SyntaxError
  | Encoding j => Ok (VJson j)
  end.

(** [JSON.stringify(v)], [None] when it returns [undefined]. *)
Definition JSON_stringify {DF : DateFormat} (v : value) : option text :=
  option_map Encoding (toJSON v).

(** ** The configuration module *)

Definition SSM_NOT_DEFINED : string := "not-defined".

(** [getParamValue(param)]: [None] is [undefined]. *)
Definition getParamValue (param : option string) : option string :=
  match param with
  | Some p => if String.eqb p SSM_NOT_DEFINED then None else Some p
  | None => None
  end.

Record config := {
  credentialVendingApiUrl : option string
}.

(** [CREDENTIAL_CONFIG] as the configuration module builds it from
    [window.WebappConfig.credentialVendingApiUrl]. *)
Definition make_CREDENTIAL_CONFIG (webappParam : option string) : config :=
  {| credentialVendingApiUrl := getParamValue webappParam |}.

(** [!apiUrl] *)
Definition unset (url : option string) : bool :=
  match url with
  | Some u => String.eqb u ""
  | None => true
  end.

(** ** State *)

(** The two callbacks [startCredentialRefreshTimer] hands to [setTimeout]:
    the pre-fetch armed when no expiration is stored, and the refresh armed
    from a stored expiration. *)
Inductive job := Prefetch | Refresh.

Record timer := {
  timer_id : positive;
  timer_delay : number;
  timer_job : job
}.

(** Who awaits a request that is on the network: a caller of
    [getValidAwsCredentials], or a timer callback. *)
Inductive awaiting := ByCaller | ByTimer (j : job).

(** Console lines, by the call that writes them. *)
Inductive line :=
| Info_obtained (expire_at : string)
| Info_scheduled (seconds : number)
| Error_getValid (e : error)
| Error_prefetch (e : error)
| Error_refresh (e : error).

Record state := {
  localStorage : option text;            (* the item "awsCredentials" *)
  credentialRefreshTimerId : option positive;  (* [None] is [null] *)
  timers : list timer;                   (* the platform's pending timers *)
  next_timer_id : positive;
  requests : list awaiting;              (* requests on the network *)
  network_calls : nat;                   (* calls of [fetch] so far *)
  console : list line;
  now : Z;                               (* the clock *)
  reloads : nat;                         (* calls of [window.location.reload] *)
  starts : nat     (* ghost: calls of [startCredentialRefreshTimer] so far *)
}.

Definition set_localStorage (x : option text) (s : state) : state :=
  {| localStorage := x;
     credentialRefreshTimerId := credentialRefreshTimerId s;
     timers := timers s; next_timer_id := next_timer_id s;
     requests := requests s; network_calls := network_calls s;
     console := console s; now := now s; reloads := reloads s;
     starts := starts s |}.

Definition set_credentialRefreshTimerId (x : option positive) (s : state) : state :=
  {| localStorage := localStorage s;
     credentialRefreshTimerId := x;
     timers := timers s; next_timer_id := next_timer_id s;
     requests := requests s; network_calls := network_calls s;
     console := console s; now := now s; reloads := reloads s;
     starts := starts s |}.

Definition set_timers (x : list timer) (s : state) : state :=
  {| localStorage := localStorage s;
     credentialRefreshTimerId := credentialRefreshTimerId s;
     timers := x; next_timer_id := next_timer_id s;
     requests := requests s; network_calls := network_calls s;
     console := console s; now := now s; reloads := reloads s;
     starts := starts s |}.

Definition set_next_timer_id (x : positive) (s : state) : state :=
  {| localStorage := localStorage s;
     credentialRefreshTimerId := credentialRefreshTimerId s;
     timers := timers s; next_timer_id := x;
     requests := requests s; network_calls := network_calls s;
     console := console s; now := now s; reloads := reloads s;
     starts := starts s |}.

Definition set_requests (x : list awaiting) (s : state) : state :=
  {| localStorage := localStorage s;
     credentialRefreshTimerId := credentialRefreshTimerId s;
     timers := timers s; next_timer_id := next_timer_id s;
     requests := x; network_calls := network_calls s;
     console := console s; now := now s; reloads := reloads s;
     starts := starts s |}.

Definition set_network_calls (x : nat) (s : state) : state :=
  {| localStorage := localStorage s;
     credentialRefreshTimerId := credentialRefreshTimerId s;
     timers := timers s; next_timer_id := next_timer_id s;
     requests := requests s; network_calls := x;
     console := console s; now := now s; reloads := reloads s;
     starts := starts s |}.

Definition set_console (x : list line) (s : state) : state :=
  {| localStorage := localStorage s;
     credentialRefreshTimerId := credentialRefreshTimerId s;
     timers := timers s; next_timer_id := next_timer_id s;
     requests := requests s; network_calls := network_calls s;
     console := x; now := now s; reloads := reloads s;
     starts := starts s |}.

Definition set_now (x : Z) (s : state) : state :=
  {| localStorage := localStorage s;
     credentialRefreshTimerId := credentialRefreshTimerId s;
     timers := timers s; next_timer_id := next_timer_id s;
     requests := requests s; network_calls := network_calls s;
     console := console s; now := x; reloads := reloads s;
     starts := starts s |}.

Definition set_reloads (x : nat) (s : state) : state :=
  {| localStorage := localStorage s;
     credentialRefreshTimerId := credentialRefreshTimerId s;
     timers := timers s; next_timer_id := next_timer_id s;
     requests := requests s; network_calls := network_calls s;
     console := console s; now := now s; reloads := x;
     starts := starts s |}.

Definition set_starts (x : nat) (s : state) : state :=
  {| localStorage := localStorage s;
     credentialRefreshTimerId := credentialRefreshTimerId s;
     timers := timers s; next_timer_id := next_timer_id s;
     requests := requests s; network_calls := network_calls s;
     console := console s; now := now s; reloads := reloads s;
     starts := x |}.

(** ** The monad of synchronous code *)

(** A computation runs from a state to a state and returns or throws; what
    it did to the state before a throw stays done. *)
Definition M (A : Type) : Type := state -> result A * state.

Definition ret {A} (a : A) : M A := fun s => (Ok a, s).

Definition throw {A} (e : error) : M A := fun s => (Throw e, s).

Definition bind {A B} (m : M A) (k : A -> M B) : M B :=
  fun s =>
    match m s with
    | (Ok a, s') => k a s'
    | (Throw e, s') => (Throw e, s')
    end.

(** [try { m } catch (e) { h e }] *)
Definition try_catch {A} (m : M A) (h : error -> M A) : M A :=
  fun s =>
    match m s with
    | (Ok a, s') => (Ok a, s')
    | (Throw e, s') => h e s'
    end.

Definition lift {A} (r : result A) : M A := fun s => (r, s).

Definition gets {A} (f : state -> A) : M A := fun s => (Ok (f s), s).

Definition modify (f : state -> state) : M unit := fun s => (Ok tt, f s).

Declare Scope monad_scope.
Delimit Scope monad_scope with monad.
Notation "x <- m ;; k" := (bind m (fun x => k))
  (at level 61, m at next level, right associativity) : monad_scope.
Notation "m ;; k" := (bind m (fun _ => k))
  (at level 61, right associativity) : monad_scope.
Local Open Scope monad_scope.

(** What an [async] function has come to when control returns to the event
    loop: it has settled with a value, or it awaits the network. *)
Inductive suspension (A : Type) :=
| Now (a : A)
| Await.
Arguments Now {A} a.
Arguments Await {A}.

(** ** The platform *)

Definition localStorage_getItem : M (option text) := gets localStorage.

Definition localStorage_setItem (t : text) : M unit :=
  modify (set_localStorage (Some t)).

Definition localStorage_removeItem : M unit :=
  modify (set_localStorage None).

Definition console_log (l : line) : M unit :=
  modify (fun s => set_console (console s ++ [l]) s).

(** [setTimeout(job, delay)]: the new timer's id. *)
Definition setTimeout (j : job) (delay : number) : M positive :=
  fun s =>
    let id := next_timer_id s in
    (Ok id,
     set_next_timer_id (Pos.succ id)
       (set_timers (timers s ++ [{| timer_id := id; timer_delay := delay;
                                    timer_job := j |}]) s)).

(** [clearTimeout(id)]; nothing happens when no such timer is pending. *)
Definition clearTimeout (id : positive) : M unit :=
  modify (fun s =>
    set_timers (filter (fun t => negb (Pos.eqb (timer_id t) id)) (timers s)) s).

(** [Date.now()] and [new Date().getTime()] *)
Definition Date_now : M Z := gets now.

(** [fetch(url, ...)] up to its [await]: the request goes out. *)
Definition fetch_send (url : string) : M unit :=
  modify (fun s => set_network_calls (S (network_calls s)) s).

Definition window_location_reload : M unit :=
  modify (fun s => set_reloads (S (reloads s)) s).

(** What comes back for a request: the transport fails ([fetch] rejects
    with a TypeError), or a response arrives, its body read. *)
Inductive reply :=
| Failed
| Response (status : Z) (statusText : string) (body : text).

(** [response.ok] *)
Definition response_ok (status : Z) : bool :=
  (200 <=? status) && (status <=? 299).

(** ** The credential module *)

Section Credentials.
Context {DF : DateFormat}.
Variable CREDENTIAL_CONFIG : config.

Definition setAwsCredentials (awsCredentials : value) : M unit :=
  localStorage_setItem
    (match JSON_stringify awsCredentials with
     | Some t => t
     | None => Malformed "undefined"
     end).

Definition getAwsCredentialsFromStorage : M value :=
  stored <- localStorage_getItem ;;
  match stored with
  | None => ret (VJson JNull)
  | Some t =>
      if is_empty t then ret (VJson JNull)
      else try_catch (lift (JSON_parse t)) (fun _ => ret (VJson JNull))
  end.

Definition hasValidAwsCredentials : M bool :=
  awsCredentials <- getAwsCredentialsFromStorage ;;
  if eq_null (OptGet awsCredentials "accessKeyId")
     || eq_null (OptGet awsCredentials "secretAccessKey")
     || eq_null (OptGet awsCredentials "sessionToken")
     || eq_null (OptGet awsCredentials "expiration")
  then ret false
  else
    (* 5-minute buffer before expiration *)
    let bufferTime := 5 * 60 * 1000 in
    currentTime <- Date_now ;;
    expiration <- lift (Get awsCredentials "expiration") ;;
    expirationTime <- lift (Date_new expiration) ;;
    ret (num_lt (Some (currentTime + bufferTime)) expirationTime).

(** [fetchCredentialsFromApi] up to [await fetch(...)]. *)
Definition fetchCredentialsFromApi : M (suspension value) :=
  let apiUrl := credentialVendingApiUrl CREDENTIAL_CONFIG in
  if unset apiUrl then
    throw (Error "credentialVendingApiUrl is not configured in WebappConfig")
  else
    fetch_send (match apiUrl with Some u => u | None => "" end) ;;
    ret Await.

(** [fetchCredentialsFromApi] from the reply on. *)
Definition fetchCredentialsFromApi_resume (r : reply) : M value :=
  match r with
  | Failed => throw TypeError
  | Response status statusText body =>
      if negb (response_ok status) then
        throw (Error ("Credential vending API returned "
                      ++ Number_toString status ++ ": " ++ statusText)%string)
      else
        data <- lift (JSON_parse body) ;;
        accessKeyId <- lift (Get data "accessKeyId") ;;
        secretAccessKey <- lift (Get data "secretAccessKey") ;;
        sessionToken <- lift (Get data "sessionToken") ;;
        expiration <- lift (Get data "expiration") ;;
        expirationDate <- lift (Date_new expiration) ;;
        let credentials :=
          VObj [("accessKeyId", accessKeyId);
                ("secretAccessKey", secretAccessKey);
                ("sessionToken", sessionToken);
                ("expiration", VDate expirationDate)] in
        iso <- lift (Date_toISOString expirationDate) ;;
        console_log (Info_obtained iso) ;;
        setAwsCredentials credentials ;;
        ret credentials
  end.

(** [getValidAwsCredentials] up to the [await]: a cache hit settles at once,
    a miss leaves the request on the network. *)
Definition getValidAwsCredentials : M (suspension value) :=
  try_catch
    (valid <- hasValidAwsCredentials ;;
     if valid then
       stored <- getAwsCredentialsFromStorage ;;
       ret (Now stored)
     else fetchCredentialsFromApi)
    (fun error => console_log (Error_getValid error) ;; throw error).

(** [getValidAwsCredentials] from the reply on. *)
Definition getValidAwsCredentials_resume (r : reply) : M value :=
  try_catch
    (fetchCredentialsFromApi_resume r)
    (fun error => console_log (Error_getValid error) ;; throw error).

Definition startCredentialRefreshTimer : M unit :=
  modify (fun s => set_starts (S (starts s)) s) ;;
  id <- gets credentialRefreshTimerId ;;
  match id with
  | Some i => clearTimeout i
  | None => ret tt
  end ;;
  awsCredentials <- getAwsCredentialsFromStorage ;;
  if negb (truthy (OptGet awsCredentials "expiration")) then
    (* No credentials yet: pre-fetch in 2 seconds *)
    id <- setTimeout Prefetch (Some 2000) ;;
    modify (set_credentialRefreshTimerId (Some id))
  else
    expiration <- lift (Get awsCredentials "expiration") ;;
    expirationTime <- lift (Date_new expiration) ;;
    now <- Date_now ;;
    (* Refresh 5 minutes before expiration *)
    let refreshTime :=
      num_sub (num_sub expirationTime (Some now)) (Some (5 * 60 * 1000)) in
    let refreshTime :=
      if num_lt refreshTime (Some 0) then Some 0 else refreshTime in
    console_log (Info_scheduled (num_floor_div refreshTime 1000)) ;;
    id <- setTimeout Refresh refreshTime ;;
    modify (set_credentialRefreshTimerId (Some id)).

(** The pre-fetch callback, up to its [await]. *)
Definition prefetch_callback : M (suspension unit) :=
  try_catch
    (got <- getValidAwsCredentials ;;
     match got with
     | Now _ => startCredentialRefreshTimer ;; ret (Now tt)
     | Await => ret Await
     end)
    (fun error => console_log (Error_prefetch error) ;; ret (Now tt)).

Definition prefetch_callback_resume (r : reply) : M unit :=
  try_catch
    (getValidAwsCredentials_resume r ;;
     startCredentialRefreshTimer)
    (fun error => console_log (Error_prefetch error)).

(** The refresh callback, up to its [await]. *)
Definition refresh_callback : M (suspension unit) :=
  try_catch
    (localStorage_removeItem ;;
     got <- getValidAwsCredentials ;;
     match got with
     | Now _ => startCredentialRefreshTimer ;; ret (Now tt)
     | Await => ret Await
     end)
    (fun error => console_log (Error_refresh error) ;; ret (Now tt)).

Definition refresh_callback_resume (r : reply) : M unit :=
  try_catch
    (getValidAwsCredentials_resume r ;;
     startCredentialRefreshTimer)
    (fun error => console_log (Error_refresh error)).

Definition logout : M unit :=
  localStorage_removeItem ;;
  id <- gets credentialRefreshTimerId ;;
  match id with
  | Some i => clearTimeout i
  | None => ret tt
  end ;;
  window_location_reload.

(** ** The event loop *)

Definition callback (j : job) : M (suspension unit) :=
  match j with
  | Prefetch => prefetch_callback
  | Refresh => refresh_callback
  end.

Definition callback_resume (j : job) (r : reply) : M unit :=
  match j with
  | Prefetch => prefetch_callback_resume r
  | Refresh => refresh_callback_resume r
  end.

(** What the event loop runs next: a call from the application, a timer
    that has run out, a reply from the network, or time passing. *)
Inductive event :=
| Call_startCredentialRefreshTimer
| Call_getValidAwsCredentials
| Call_hasValidAwsCredentials
| Call_logout
| Timeout (id : positive)
| Reply (i : nat) (r : reply)
| Tick (ms : Z).

Definition find_timer (id : positive) (s : state) : option timer :=
  find (fun t => Pos.eqb (timer_id t) id) (timers s).

Definition remove_timer (id : positive) (s : state) : state :=
  set_timers (filter (fun t => negb (Pos.eqb (timer_id t) id)) (timers s)) s.

Definition remove_request (i : nat) (s : state) : state :=
  set_requests (firstn i (requests s) ++ skipn (S i) (requests s)) s.

(** A suspended activation is remembered with the request it awaits. *)
Definition park {A} (who : awaiting) (r : result (suspension A) * state) : state :=
  match r with
  | (Ok Await, s) => set_requests (requests s ++ [who]) s
  | (_, s) => s
  end.

(** One turn of the event loop; [None] when the event cannot happen in
    this state (no such timer pending, no such request out, time running
    backwards).  A timer that runs out leaves the schedule before its
    callback runs. *)
Definition step (s : state) (e : event) : option state :=
  match e with
  | Call_startCredentialRefreshTimer => Some (snd (startCredentialRefreshTimer s))
  | Call_getValidAwsCredentials => Some (park ByCaller (getValidAwsCredentials s))
  | Call_hasValidAwsCredentials => Some (snd (hasValidAwsCredentials s))
  | Call_logout => Some (snd (logout s))
  | Timeout id =>
      match find_timer id s with
      | Some t =>
          Some (park (ByTimer (timer_job t))
                  (callback (timer_job t) (remove_timer id s)))
      | None => None
      end
  | Reply i r =>
      match nth_error (requests s) i with
      | Some ByCaller =>
          Some (snd (getValidAwsCredentials_resume r (remove_request i s)))
      | Some (ByTimer j) =>
          Some (snd (callback_resume j r (remove_request i s)))
      | None => None
      end
  | Tick ms =>
      if 0 <=? ms then Some (set_now (now s + ms) s) else None
  end.

Fixpoint run (s : state) (es : list event) : option state :=
  match es with
  | [] => Some s
  | e :: rest =>
      match step s e with
      | Some s' => run s' rest
      | None => None
      end
  end.

(** The page has just loaded: whatever an earlier session left in
    localStorage, no timer, no request. *)
Definition initial (s : state) : Prop :=
  credentialRefreshTimerId s = None /\ timers s = [] /\ requests s = [].

Inductive reachable : state -> Prop :=
| reachable_initial s : initial s -> reachable s
| reachable_step s e s' : reachable s -> step s e = Some s' -> reachable s'.

End Credentials.

(** ** Vocabulary of the statements *)

(** What [getAwsCredentialsFromStorage] returns in a state. *)
Definition stored_value (s : state) : value :=
  match localStorage s with
  | Some (Encoding j) => VJson j
  | _ => VJson JNull
  end.

(** None of the four fields of a record is [null] or [undefined]. *)
Definition fields_present (v : value) : bool :=
  negb (eq_null (OptGet v "accessKeyId"))
  && negb (eq_null (OptGet v "secretAccessKey"))
  && negb (eq_null (OptGet v "sessionToken"))
  && negb (eq_null (OptGet v "expiration")).

(** The record [fetchCredentialsFromApi] builds from the decoded body. *)
Definition credentials_of (data : value) (expirationDate : number) : value :=
  VObj [("accessKeyId", member data "accessKeyId");
        ("secretAccessKey", member data "secretAccessKey");
        ("sessionToken", member data "sessionToken");
        ("expiration", VDate expirationDate)].

(** The error thrown for a missing endpoint URL. *)
Definition config_error : error :=
  Error "credentialVendingApiUrl is not configured in WebappConfig".

Definition log (l : line) (s : state) : state :=
  set_console (console s ++ [l]) s.

(** The state once [startCredentialRefreshTimer] has cleared the timer it
    knows of. *)
Definition cleared (s : state) : state :=
  let s1 := set_starts (S (starts s)) s in
  match credentialRefreshTimerId s with
  | Some i =>
      set_timers (filter (fun t => negb (Pos.eqb (timer_id t) i)) (timers s)) s1
  | None => s1
  end.

(** [credentialRefreshTimerId = setTimeout(job, delay)] *)
Definition arm (j : job) (delay : number) (s : state) : state :=
  set_credentialRefreshTimerId (Some (next_timer_id s))
    (snd (setTimeout j delay s)).

(** [refreshTime] as [startCredentialRefreshTimer] computes it. *)
Definition refresh_delay (expirationTime : number) (now : Z) : number :=
  let refreshTime :=
    num_sub (num_sub expirationTime (Some now)) (Some (5 * 60 * 1000)) in
  if num_lt refreshTime (Some 0) then Some 0 else refreshTime.

(** The state in which a timer callback calls [getValidAwsCredentials]. *)
Definition before_getValid (j : job) (s : state) : state :=
  match j with
  | Prefetch => s
  | Refresh => set_localStorage None s
  end.

Definition job_error (j : job) (e : error) : line :=
  match j with
  | Prefetch => Error_prefetch e
  | Refresh => Error_refresh e
  end.

(** At most one timer is pending, and it is the one the module holds the
    id of. *)
Definition single_timer (s : state) : Prop :=
  match timers s with
  | [] => True
  | [t] => credentialRefreshTimerId s = Some (timer_id t)
  | _ => False
  end.

(** Every pending timer has an id [setTimeout] has already handed out: the
    next id is larger than each of them. *)
Definition ids_handed_out (s : state) : Prop :=
  forall t, In t (timers s) -> (timer_id t < next_timer_id s)%positive.

Definition is_Timeout (e : event) : bool :=
  match e with
  | Timeout _ => true
  | _ => false
  end.

Definition is_start_call (e : event) : bool :=
  match e with
  | Call_startCredentialRefreshTimer => true
  | _ => false
  end.

(** No timer callback is waiting for a reply. *)
Definition no_callback_waits (s : state) : bool :=
  forallb (fun who => match who with
                      | ByCaller => true
                      | ByTimer _ => false
                      end) (requests s).

(** A turn that leaves the schedule alone, or at most takes timers off it. *)
Definition quiet (s s' : state) : Prop :=
  (exists p, timers s' = filter p (timers s))
  /\ credentialRefreshTimerId s' = credentialRefreshTimerId s
  /\ next_timer_id s' = next_timer_id s
  /\ starts s' = starts s.

(** A turn in which [startCredentialRefreshTimer] ran once. *)
Definition restart (s s' : state) : Prop :=
  starts s' = S (starts s) /\ (single_timer s -> single_timer s').

(** [startCredentialRefreshTimer] has armed timer [t] in going from [s] to
    [s']: the timer it knew of is cleared, [t] is new and pending, and the
    module holds its id. *)
Definition rearmed (s s' : state) (t : timer) : Prop :=
  timers s' = (timers (cleared s) ++ [t])%list
  /\ timer_id t = next_timer_id s
  /\ credentialRefreshTimerId s' = Some (next_timer_id s).

(** ** A reference [DateFormat]: the ISO 8601 form of [toISOString]

    [toISOString] as ECMAScript defines it (YYYY-MM-DDTHH:mm:ss.sssZ, the
    year written with a sign and six digits outside 0..9999), and a
    [Date.parse] that reads exactly that form. *)
Module ISO8601.

Definition msPerDay : Z := 86400000.

(** Day number (days since 1970-01-01) to proleptic Gregorian year, month
    and day, over 400-year eras that start on March 1st. *)
Definition civil_from_days (z : Z) : Z * Z * Z :=
  let z := z + 719468 in
  let era := z / 146097 in
  let doe := z - era * 146097 in
  let yoe := (doe - doe / 1460 + doe / 36524 - doe / 146096) / 365 in
  let doy := doe - (365 * yoe + yoe / 4 - yoe / 100) in
  let mp := (5 * doy + 2) / 153 in
  let d := doy - (153 * mp + 2) / 5 + 1 in
  let m := if mp <? 10 then mp + 3 else mp - 9 in
  (yoe + era * 400 + (if m <=? 2 then 1 else 0), m, d).

Definition days_from_civil (y m d : Z) : Z :=
  let y := y - (if m <=? 2 then 1 else 0) in
  let era := y / 400 in
  let yoe := y - era * 400 in
  let doy := (153 * (if 2 <? m then m - 3 else m + 9) + 2) / 5 + d - 1 in
  let doe := yoe * 365 + yoe / 4 - yoe / 100 + doy in
  era * 146097 + doe - 719468.

Definition digit (n : Z) : ascii := ascii_of_N (48 + Z.to_N n).

Definition digit_value (c : ascii) : option Z :=
  let n := Z.of_N (N_of_ascii c) in
  if (48 <=? n) && (n <=? 57) then Some (n - 48) else None.

(** [w] decimal digits of [n], zero-padded, in front of [rest]. *)
Fixpoint digits (w : nat) (n : Z) (rest : string) : string :=
  match w with
  | O => rest
  | S w' => digits w' (n / 10) (String (digit (n mod 10)) rest)
  end.

Fixpoint read_digits (w : nat) (acc : Z) (s : string) : option (Z * string) :=
  match w with
  | O => Some (acc, s)
  | S w' =>
      match s with
      | String c rest =>
          match digit_value c with
          | Some n => read_digits w' (acc * 10 + n) rest
          | None => None
          end
      | EmptyString => None
      end
  end.

Definition expect (c : ascii) (s : string) : option string :=
  match s with
  | String c' rest => if Ascii.eqb c c' then Some rest else None
  | EmptyString => None
  end.

Definition year_string (y : Z) (rest : string) : string :=
  if (0 <=? y) && (y <=? 9999) then digits 4 y rest
  else if y <? 0 then String "-" (digits 6 (- y) rest)
  else String "+" (digits 6 y rest).

Definition read_year (s : string) : option (Z * string) :=
  match s with
  | String "+" rest => read_digits 6 0 rest
  | String "-" rest =>
      match read_digits 6 0 rest with
      | Some (n, rest') => if n =? 0 then None else Some (- n, rest')
      | None => None
      end
  | _ => read_digits 4 0 s
  end.

Definition toISOString (t : Z) : string :=
  let day := t / msPerDay in
  let ms := t mod msPerDay in
  let '(y, m, d) := civil_from_days day in
  year_string y
    (String "-" (digits 2 m
    (String "-" (digits 2 d
    (String "T" (digits 2 (ms / 3600000)
    (String ":" (digits 2 ((ms / 60000) mod 60)
    (String ":" (digits 2 ((ms / 1000) mod 60)
    (String "." (digits 3 (ms mod 1000) "Z")))))))))))).

Definition obind {A B} (o : option A) (k : A -> option B) : option B :=
  match o with
  | Some a => k a
  | None => None
  end.

Definition in_field (lo hi x : Z) : bool := (lo <=? x) && (x <=? hi).

(** The fields of YYYY-MM-DDTHH:mm:ss.sssZ as a number of milliseconds. *)
Definition parse_fields (s : string) : option Z :=
  obind (read_year s) (fun '(y, s) =>
  obind (expect "-" s) (fun s =>
  obind (read_digits 2 0 s) (fun '(m, s) =>
  obind (expect "-" s) (fun s =>
  obind (read_digits 2 0 s) (fun '(d, s) =>
  obind (expect "T" s) (fun s =>
  obind (read_digits 2 0 s) (fun '(h, s) =>
  obind (expect ":" s) (fun s =>
  obind (read_digits 2 0 s) (fun '(mi, s) =>
  obind (expect ":" s) (fun s =>
  obind (read_digits 2 0 s) (fun '(sec, s) =>
  obind (expect "." s) (fun s =>
  obind (read_digits 3 0 s) (fun '(milli, s) =>
  obind (expect "Z" s) (fun s =>
  match s with
  | EmptyString =>
      if in_field 1 12 m && in_field 1 31 d && in_field 0 23 h
         && in_field 0 59 mi && in_field 0 59 sec
      then Some (days_from_civil y m d * msPerDay
                 + h * 3600000 + mi * 60000 + sec * 1000 + milli)
      else None
  | String _ _ => None
  end)))))))))))))).

Definition parse (s : string) : number :=
  obind (parse_fields s) TimeClip.

End ISO8601.

(** ** Sample inputs *)

(** The state of a page that has just loaded, with what an earlier session
    left in the store. *)
Definition page_load (item : option text) (clock : Z) : state :=
  {| localStorage := item; credentialRefreshTimerId := None; timers := [];
     next_timer_id := 1%positive; requests := []; network_calls := 0;
     console := []; now := clock; reloads := 0; starts := 0 |}.

Definition configured : config :=
  make_CREDENTIAL_CONFIG
    (Some "https://abc123.execute-api.us-east-1.amazonaws.com/prod/credentials").

Definition unconfigured : config := make_CREDENTIAL_CONFIG (Some "not-defined").

(** 2024-11-02T08:00:00.000Z *)
Definition eight_oclock : Z := 1730534400000.

(** A complete record that expires at the given time. *)
Definition issued (expiration : string) : json :=
  JObj [("accessKeyId", JStr "ASIAEXAMPLE");
        ("secretAccessKey", JStr "wJalrEXAMPLEKEY");
        ("sessionToken", JStr "FwoGEXAMPLETOKEN");
        ("expiration", JStr expiration)].

(** A body with an expiration and nothing else. *)
Definition expiration_only (expiration : string) : json :=
  JObj [("expiration", JStr expiration)].

(** ** Vocabulary of the further statements *)

(** The store holds nothing, or a record the module itself has written:
    what [fetchCredentialsFromApi] stores for some decoded body. *)
Definition module_written {DF : DateFormat} (s : state) : Prop :=
  localStorage s = None
  \/ exists data t,
       in_time_range t
       /\ localStorage s = JSON_stringify (credentials_of (VJson data) (Some t)).

(** A delay [startCredentialRefreshTimer] may hand to [setTimeout]: 2000 ms
    for the pre-fetch; for the refresh a number of milliseconds that is not
    negative, or NaN. *)
Definition delay_ok (t : timer) : Prop :=
  match timer_job t with
  | Prefetch => timer_delay t = Some 2000
  | Refresh => timer_delay t = NaN \/ exists d, timer_delay t = Some d /\ 0 <= d
  end.

(** Every pending timer of [s'] was pending in [s] or has a delay the
    module computes. *)
Definition keeps_delays (s s' : state) : Prop :=
  forall t, In t (timers s') -> In t (timers s) \/ delay_ok t.

(** The store of [s'] is that of [s], or empty, or a record the module has
    written. *)
Definition keeps_store {DF : DateFormat} (s s' : state) : Prop :=
  localStorage s' = localStorage s \/ module_written s'.

(** A stored record whose expiration is the given JSON value. *)
Definition record_expiring (expiration : json) : json :=
  JObj [("accessKeyId", JStr "ASIAEXAMPLE");
        ("secretAccessKey", JStr "wJalrEXAMPLEKEY");
        ("sessionToken", JStr "FwoGEXAMPLETOKEN");
        ("expiration", expiration)].

(** * Properties *)

(** ** The reference date format keeps the laws of [DateFormat] *)

Module ISO8601_facts.
Import ISO8601.

Lemma digit_value_digit (n : Z) :
  0 <= n <= 9 -> digit_value (digit n) = Some n.
Proof.
  intros H. destruct n as [| p | p]; [reflexivity | | lia].
  do 4 (destruct p as [p | p |]; try reflexivity; try lia).
Qed.

Lemma read_digits_digits (w : nat) :
  forall (k : nat) (n acc : Z) (rest : string),
    0 <= n < 10 ^ Z.of_nat w ->
    read_digits (w + k) acc (digits w n rest)
    = read_digits k (acc * 10 ^ Z.of_nat w + n) rest.
Proof.
  induction w as [| w IH]; intros k n acc rest Hn.
  - simpl in *. f_equal. lia.
  - rewrite Nat2Z.inj_succ, Z.pow_succ_r in Hn by lia.
    cbn [digits].
    replace (S w + k)%nat with (w + S k)%nat by lia.
    rewrite IH by (Z.div_mod_to_equations; lia).
    cbn [read_digits].
    rewrite digit_value_digit by (Z.div_mod_to_equations; lia).
    f_equal.
    rewrite Nat2Z.inj_succ, Z.pow_succ_r by lia.
    Z.div_mod_to_equations; lia.
Qed.

Lemma read_digits_exact (w : nat) (n : Z) (rest : string) :
  0 <= n < 10 ^ Z.of_nat w ->
  read_digits w 0 (digits w n rest) = Some (n, rest).
Proof.
  intros Hn.
  replace w with (w + 0)%nat at 1 by lia.
  rewrite read_digits_digits by exact Hn.
  reflexivity.
Qed.

Lemma read_year_digit (k : Z) (s : string) :
  0 <= k <= 9 ->
  read_year (String (digit k) s) = read_digits 4 0 (String (digit k) s).
Proof.
  intros H. destruct k as [| p | p]; [reflexivity | | lia].
  do 4 (destruct p as [p | p |]; try reflexivity; try lia).
Qed.

Lemma read_year_year_string (y : Z) (rest : string) :
  -999999 <= y <= 999999 ->
  read_year (year_string y rest) = Some (y, rest).
Proof.
  intros Hy. unfold year_string.
  destruct ((0 <=? y) && (y <=? 9999)) eqn:E4.
  - apply andb_true_iff in E4 as [E1 E2].
    apply Z.leb_le in E1. apply Z.leb_le in E2.
    assert (digits 4 y rest
            = String (digit (y / 10 / 10 / 10 mod 10))
                (digits 3 (y mod 1000) rest)) as ->.
    { cbn [digits].
      replace (y mod 1000 / 10 / 10 mod 10) with (y / 10 / 10 mod 10)
        by (Z.div_mod_to_equations; lia).
      replace (y mod 1000 / 10 mod 10) with (y / 10 mod 10)
        by (Z.div_mod_to_equations; lia).
      replace (y mod 1000 mod 10) with (y mod 10)
        by (Z.div_mod_to_equations; lia).
      reflexivity. }
    rewrite read_year_digit by (Z.div_mod_to_equations; lia).
    assert (String (digit (y / 10 / 10 / 10 mod 10))
              (digits 3 (y mod 1000) rest) = digits 4 y rest) as ->.
    { cbn [digits].
      replace (y mod 1000 / 10 / 10 mod 10) with (y / 10 / 10 mod 10)
        by (Z.div_mod_to_equations; lia).
      replace (y mod 1000 / 10 mod 10) with (y / 10 mod 10)
        by (Z.div_mod_to_equations; lia).
      replace (y mod 1000 mod 10) with (y mod 10)
        by (Z.div_mod_to_equations; lia).
      reflexivity. }
    apply read_digits_exact. simpl. lia.
  - destruct (y <? 0) eqn:Eneg.
    + apply Z.ltb_lt in Eneg. cbn [read_year].
      rewrite read_digits_exact by (simpl; lia).
      destruct (- y =? 0) eqn:E0.
      * apply Z.eqb_eq in E0. lia.
      * f_equal. f_equal. lia.
    + apply Z.ltb_ge in Eneg. cbn [read_year].
      apply read_digits_exact. simpl. lia.
Qed.

(** The calendar conversion is inverted by [days_from_civil], and gives a
    month and a day of the month. *)
Lemma civil_from_days_inverse (z : Z) :
  let '(y, m, d) := civil_from_days z in
  days_from_civil y m d = z /\ 1 <= m <= 12 /\ 1 <= d <= 31
  /\ (z + 719468) / 146097 * 400 <= y <= (z + 719468) / 146097 * 400 + 400.
Proof.
  unfold civil_from_days, days_from_civil.
  set (z' := z + 719468).
  set (era := z' / 146097).
  set (doe := z' - era * 146097).
  assert (0 <= doe < 146097) as Hdoe
    by (subst doe era; Z.div_mod_to_equations; lia).
  set (yoe := (doe - doe / 1460 + doe / 36524 - doe / 146096) / 365).
  assert (0 <= yoe <= 399
          /\ 0 <= doe - (365 * yoe + yoe / 4 - yoe / 100) <= 365) as [Hyoe Hdoy]
    by (subst yoe; Z.div_mod_to_equations; lia).
  set (doy := doe - (365 * yoe + yoe / 4 - yoe / 100)) in *.
  set (mp := (5 * doy + 2) / 153).
  assert (0 <= mp <= 11) as Hmp by (subst mp; Z.div_mod_to_equations; lia).
  set (d := doy - (153 * mp + 2) / 5 + 1).
  destruct (mp <? 10) eqn:E10;
    [apply Z.ltb_lt in E10 | apply Z.ltb_ge in E10].
  - assert ((mp + 3 <=? 2) = false) as -> by (apply Z.leb_gt; lia).
    assert ((2 <? mp + 3) = true) as -> by (apply Z.ltb_lt; lia).
    replace (yoe + era * 400 + 0 - 0) with (yoe + era * 400) by lia.
    replace ((yoe + era * 400) / 400) with era
      by (Z.div_mod_to_equations; lia).
    replace (yoe + era * 400 - era * 400) with yoe by lia.
    replace (mp + 3 - 3) with mp by lia.
    repeat split; try lia;
      subst d mp doy z'; Z.div_mod_to_equations; lia.
  - assert ((mp - 9 <=? 2) = true) as -> by (apply Z.leb_le; lia).
    assert ((2 <? mp - 9) = false) as -> by (apply Z.ltb_ge; lia).
    replace (yoe + era * 400 + 1 - 1) with (yoe + era * 400) by lia.
    replace ((yoe + era * 400) / 400) with era
      by (Z.div_mod_to_equations; lia).
    replace (yoe + era * 400 - era * 400) with yoe by lia.
    replace (mp - 9 + 9) with mp by lia.
    repeat split; try lia;
      subst d mp doy z'; Z.div_mod_to_equations; lia.
Qed.

Lemma in_field_true (lo hi x : Z) : lo <= x <= hi -> in_field lo hi x = true.
Proof.
  intros H. unfold in_field.
  apply andb_true_iff. split; apply Z.leb_le; lia.
Qed.

Lemma TimeClip_in_range (t : Z) : in_time_range t -> TimeClip t = Some t.
Proof.
  unfold in_time_range, TimeClip. intros H.
  destruct (- maxTime <=? t) eqn:E1; [| apply Z.leb_gt in E1; lia].
  destruct (t <=? maxTime) eqn:E2; [| apply Z.leb_gt in E2; lia].
  reflexivity.
Qed.

Lemma TimeClip_Some (x t : Z) : TimeClip x = Some t -> x = t /\ in_time_range t.
Proof.
  unfold TimeClip, in_time_range. intros H.
  destruct (- maxTime <=? x) eqn:E1; [| discriminate].
  destruct (x <=? maxTime) eqn:E2; [| discriminate].
  apply Z.leb_le in E1. apply Z.leb_le in E2.
  simpl in H. injection H as <-. lia.
Qed.

Lemma parse_fields_toISOString (t : Z) :
  in_time_range t -> parse_fields (toISOString t) = Some t.
Proof.
  intros Ht. unfold in_time_range, maxTime in Ht.
  unfold toISOString, msPerDay.
  pose proof (civil_from_days_inverse (t / 86400000)) as Hc.
  destruct (civil_from_days (t / 86400000)) as [[y m] d].
  destruct Hc as (Hback & Hm & Hd & Hy).
  set (ms := t mod 86400000).
  assert (0 <= ms < 86400000) as Hms
    by (subst ms; Z.div_mod_to_equations; lia).
  unfold parse_fields.
  rewrite read_year_year_string by (Z.div_mod_to_equations; lia).
  cbn [obind expect Ascii.eqb Bool.eqb].
  rewrite read_digits_exact by (simpl; lia).
  cbn [obind expect Ascii.eqb Bool.eqb].
  rewrite read_digits_exact by (simpl; lia).
  cbn [obind expect Ascii.eqb Bool.eqb].
  rewrite read_digits_exact by (simpl; Z.div_mod_to_equations; lia).
  cbn [obind expect Ascii.eqb Bool.eqb].
  rewrite read_digits_exact by (simpl; Z.div_mod_to_equations; lia).
  cbn [obind expect Ascii.eqb Bool.eqb].
  rewrite read_digits_exact by (simpl; Z.div_mod_to_equations; lia).
  cbn [obind expect Ascii.eqb Bool.eqb].
  rewrite read_digits_exact by (simpl; Z.div_mod_to_equations; lia).
  cbn [obind expect Ascii.eqb Bool.eqb].
  rewrite !in_field_true by (Z.div_mod_to_equations; lia).
  cbn [andb]. f_equal. rewrite Hback. unfold msPerDay.
  subst ms. Z.div_mod_to_equations; lia.
Qed.

Lemma parse_toISOString (t : Z) :
  in_time_range t -> parse (toISOString t) = Some t.
Proof.
  intros Ht. unfold parse.
  rewrite parse_fields_toISOString by exact Ht.
  apply TimeClip_in_range, Ht.
Qed.

Lemma parse_range (s : string) (t : Z) : parse s = Some t -> in_time_range t.
Proof.
  unfold parse. destruct (parse_fields s) as [x |]; simpl; [| discriminate].
  intros H. apply TimeClip_Some in H. apply H.
Qed.

End ISO8601_facts.

(** The reference platform. *)
Definition ISO8601_format : DateFormat := {|
  Date_parse := ISO8601.parse;
  toISOString := ISO8601.toISOString;
  Date_parse_toISOString := ISO8601_facts.parse_toISOString;
  Date_parse_range := ISO8601_facts.parse_range;
  Date_parse_empty := eq_refl
|}.

(** ** Equations of the module's functions *)

Ltac run_monad :=
  cbv beta iota delta
    [bind ret throw lift gets modify try_catch
     localStorage_getItem localStorage_setItem localStorage_removeItem
     console_log clearTimeout Date_now fetch_send window_location_reload].

Ltac fields :=
  cbn [localStorage credentialRefreshTimerId timers next_timer_id requests
       network_calls console now reloads starts
       set_localStorage set_credentialRefreshTimerId set_timers
       set_next_timer_id set_requests set_network_calls set_console set_now
       set_reloads set_starts fst snd].

Section Equations.
Context {DF : DateFormat}.
Variable CREDENTIAL_CONFIG : config.

Lemma getAwsCredentialsFromStorage_eq (s : state) :
  getAwsCredentialsFromStorage s = (Ok (stored_value s), s).
Proof.
  unfold getAwsCredentialsFromStorage, stored_value. run_monad.
  destruct (localStorage s) as [[raw | j] |]; simpl; try reflexivity.
  destruct (raw =? "")%string; reflexivity.
Qed.

Lemma stored_value_ext (s s' : state) :
  localStorage s' = localStorage s -> stored_value s' = stored_value s.
Proof. unfold stored_value. intros ->. reflexivity. Qed.

Lemma Get_present (v : value) (k : string) :
  eq_null (OptGet v k) = false -> Get v k = Ok (OptGet v k).
Proof.
  destruct v as [| [] | |]; simpl; intros H; try discriminate; reflexivity.
Qed.

Lemma Get_truthy (v : value) (k : string) :
  truthy (OptGet v k) = true -> Get v k = Ok (OptGet v k).
Proof.
  destruct v as [| [] | |]; simpl; intros H; try discriminate; reflexivity.
Qed.

Lemma hasValidAwsCredentials_eq (s : state) :
  hasValidAwsCredentials s =
  (if fields_present (stored_value s) then
     bind_result (Date_new (OptGet (stored_value s) "expiration"))
       (fun t => Ok (num_lt (Some (now s + 300000)) t))
   else Ok false, s).
Proof.
  unfold hasValidAwsCredentials, bind at 1.
  rewrite getAwsCredentialsFromStorage_eq.
  unfold fields_present.
  destruct (eq_null (OptGet (stored_value s) "accessKeyId")); [reflexivity |].
  destruct (eq_null (OptGet (stored_value s) "secretAccessKey")); [reflexivity |].
  destruct (eq_null (OptGet (stored_value s) "sessionToken")); [reflexivity |].
  destruct (eq_null (OptGet (stored_value s) "expiration")) eqn:E; [reflexivity |].
  run_monad. rewrite (Get_present _ _ E).
  destruct (Date_new (OptGet (stored_value s) "expiration")); reflexivity.
Qed.

Lemma hasValidAwsCredentials_state (s : state) :
  snd (hasValidAwsCredentials s) = s.
Proof. rewrite hasValidAwsCredentials_eq. reflexivity. Qed.

Lemma startCredentialRefreshTimer_eq (s : state) :
  startCredentialRefreshTimer s =
  let expiration := OptGet (stored_value s) "expiration" in
  if negb (truthy expiration) then
    (Ok tt, arm Prefetch (Some 2000) (cleared s))
  else
    match Date_new expiration with
    | Ok t =>
        let delay := refresh_delay t (now s) in
        (Ok tt, arm Refresh delay
                  (log (Info_scheduled (num_floor_div delay 1000)) (cleared s)))
    | Throw e => (Throw e, cleared s)
    end.
Proof.
  unfold startCredentialRefreshTimer. run_monad. cbn zeta. fields.
  unfold cleared.
  destruct (credentialRefreshTimerId s) as [i |]; cbn beta iota;
    rewrite getAwsCredentialsFromStorage_eq;
    (rewrite (stored_value_ext s) by reflexivity);
    (destruct (truthy (OptGet (stored_value s) "expiration")) eqn:Et;
     cbn [negb]; cbv iota beta;
     [ rewrite (Get_truthy _ _ Et);
       destruct (Date_new (OptGet (stored_value s) "expiration"));
       reflexivity
     | reflexivity ]).
Qed.

Lemma fetchCredentialsFromApi_eq (s : state) :
  fetchCredentialsFromApi CREDENTIAL_CONFIG s =
  if unset (credentialVendingApiUrl CREDENTIAL_CONFIG)
  then (Throw config_error, s)
  else (Ok Await, set_network_calls (S (network_calls s)) s).
Proof.
  unfold fetchCredentialsFromApi. cbn zeta.
  destruct (unset (credentialVendingApiUrl CREDENTIAL_CONFIG)); reflexivity.
Qed.

Lemma getValidAwsCredentials_eq (s : state) :
  getValidAwsCredentials CREDENTIAL_CONFIG s =
  match fst (hasValidAwsCredentials s) with
  | Ok true => (Ok (Now (stored_value s)), s)
  | Ok false =>
      if unset (credentialVendingApiUrl CREDENTIAL_CONFIG)
      then (Throw config_error, log (Error_getValid config_error) s)
      else (Ok Await, set_network_calls (S (network_calls s)) s)
  | Throw e => (Throw e, log (Error_getValid e) s)
  end.
Proof.
  unfold getValidAwsCredentials, try_catch, bind at 1.
  destruct (hasValidAwsCredentials s) as [r s1] eqn:E.
  pose proof (hasValidAwsCredentials_state s) as Hs.
  rewrite E in Hs. simpl in Hs. subst s1. cbn [fst].
  destruct r as [[|] | e].
  - unfold bind. rewrite getAwsCredentialsFromStorage_eq. reflexivity.
  - rewrite fetchCredentialsFromApi_eq.
    destruct (unset (credentialVendingApiUrl CREDENTIAL_CONFIG)); reflexivity.
  - reflexivity.
Qed.

Lemma getValidAwsCredentials_resume_eq (r : reply) (s : state) :
  getValidAwsCredentials_resume r s =
  match fetchCredentialsFromApi_resume r s with
  | (Ok v, s') => (Ok v, s')
  | (Throw e, s') => (Throw e, log (Error_getValid e) s')
  end.
Proof.
  unfold getValidAwsCredentials_resume, try_catch.
  destruct (fetchCredentialsFromApi_resume r s) as [[v | e] s']; reflexivity.
Qed.

(** A timer callback is [getValidAwsCredentials] and then, on success only,
    [startCredentialRefreshTimer]; every error ends in the callback's
    [catch]. *)
Lemma callback_eq (j : job) (s : state) :
  callback CREDENTIAL_CONFIG j s =
  match getValidAwsCredentials CREDENTIAL_CONFIG (before_getValid j s) with
  | (Ok (Now _), s1) =>
      match startCredentialRefreshTimer s1 with
      | (Ok _, s2) => (Ok (Now tt), s2)
      | (Throw e, s2) => (Ok (Now tt), log (job_error j e) s2)
      end
  | (Ok Await, s1) => (Ok Await, s1)
  | (Throw e, s1) => (Ok (Now tt), log (job_error j e) s1)
  end.
Proof.
  destruct j; unfold callback, prefetch_callback, refresh_callback,
    before_getValid; run_monad;
    match goal with
    | |- context [getValidAwsCredentials ?c ?x] =>
        destruct (getValidAwsCredentials c x) as [[[v |] | e] s1]
    end; try reflexivity;
    destruct (startCredentialRefreshTimer s1) as [[[] | e] s2]; reflexivity.
Qed.

Lemma callback_resume_eq (j : job) (r : reply) (s : state) :
  callback_resume j r s =
  match getValidAwsCredentials_resume r s with
  | (Ok _, s1) =>
      match startCredentialRefreshTimer s1 with
      | (Ok _, s2) => (Ok tt, s2)
      | (Throw e, s2) => (Ok tt, log (job_error j e) s2)
      end
  | (Throw e, s1) => (Ok tt, log (job_error j e) s1)
  end.
Proof.
  destruct j; unfold callback_resume, prefetch_callback_resume,
    refresh_callback_resume; run_monad;
    destruct (getValidAwsCredentials_resume r s) as [[v | e] s1];
    try reflexivity;
    destruct (startCredentialRefreshTimer s1) as [[[] | e] s2]; reflexivity.
Qed.

Lemma logout_eq (s : state) :
  logout s =
  (Ok tt,
   set_reloads (S (reloads s))
     (match credentialRefreshTimerId s with
      | Some i =>
          set_timers (filter (fun t => negb (Pos.eqb (timer_id t) i)) (timers s))
            (set_localStorage None s)
      | None => set_localStorage None s
      end)).
Proof.
  unfold logout. run_monad. fields.
  destruct (credentialRefreshTimerId s); reflexivity.
Qed.

End Equations.

(** ** What a reply leaves in the store *)

Section Fetching.
Context {DF : DateFormat}.
Variable CREDENTIAL_CONFIG : config.

Lemma member_json (data : json) (k : string) :
  member (VJson data) k = VUndefined
  \/ exists j, member (VJson data) k = VJson j.
Proof.
  destruct data; simpl; auto.
  destruct (lookup k members); eauto.
Qed.

Lemma TimeClip_range (x t : Z) : TimeClip x = Some t -> in_time_range t.
Proof. intros H. apply ISO8601_facts.TimeClip_Some in H. apply H. Qed.

Lemma Date_new_range (v : value) (t : Z) :
  Date_new v = Ok (Some t) -> in_time_range t.
Proof.
  assert (in_time_range 0 /\ in_time_range 1) as [H0 H1]
    by (unfold in_time_range, maxTime; lia).
  destruct v as [| j | [x |] | members]; simpl; intros H; try discriminate.
  - destruct j as [| [|] | n | s | items | members];
      try (injection H as <-; assumption);
      try (injection H as H; eapply TimeClip_range; eassumption);
      try (injection H as H; eapply Date_parse_range; eassumption).
    + destruct (ToString (JArr items)); simpl in H; [| discriminate].
      injection H as H. eapply Date_parse_range; eassumption.
    + destruct (ToString (JObj members)); simpl in H; [| discriminate].
      injection H as H. eapply Date_parse_range; eassumption.
  - injection H as H. eapply TimeClip_range; eassumption.
  - destruct (has_own "toString" members); [discriminate |].
    injection H as H. eapply Date_parse_range; eassumption.
Qed.

Lemma toISOString_not_empty (t : Z) :
  in_time_range t -> String.eqb (toISOString t) "" = false.
Proof.
  intros Ht. destruct (String.eqb_spec (toISOString t) "") as [E |]; [| reflexivity].
  pose proof (Date_parse_toISOString t Ht) as P.
  rewrite E, Date_parse_empty in P. discriminate.
Qed.

(** A 2xx reply, case by case on its body. *)
Lemma fetchCredentialsFromApi_resume_2xx
    (status : Z) (statusText : string) (body : text) (s : state) :
  response_ok status = true ->
  fetchCredentialsFromApi_resume (Response status statusText body) s =
  match body with
  | Malformed _ => (Throw SyntaxError, s)
  | Encoding JNull => (Throw TypeError, s)
  | Encoding data =>
      match Date_new (member (VJson data) "expiration") with
      | Throw e => (Throw e, s)
      | Ok None => (Throw RangeError, s)
      | Ok (Some t) =>
          let record := credentials_of (VJson data) (Some t) in
          (Ok record,
           set_localStorage (JSON_stringify record)
             (log (Info_obtained (toISOString t)) s))
      end
  end.
Proof.
  intros Hok. unfold fetchCredentialsFromApi_resume. rewrite Hok.
  cbn [negb]. cbv iota. run_monad.
  destruct body as [raw | data]; [reflexivity |].
  destruct data; try reflexivity;
    cbn [JSON_parse Get];
    match goal with
    | |- context [Date_new ?x] => destruct (Date_new x) as [[t |] | e]
    end; reflexivity.
Qed.

Lemma fetchCredentialsFromApi_resume_not_2xx
    (status : Z) (statusText : string) (body : text) (s : state) :
  response_ok status = false ->
  fetchCredentialsFromApi_resume (Response status statusText body) s =
  (Throw (Error ("Credential vending API returned "
                 ++ Number_toString status ++ ": " ++ statusText)%string), s).
Proof.
  intros Hok. unfold fetchCredentialsFromApi_resume. rewrite Hok. reflexivity.
Qed.

(** Every success of the fetcher is a decoded 2xx body, stored. *)
Lemma fetchCredentialsFromApi_resume_Ok (r : reply) (s s' : state) (v : value) :
  fetchCredentialsFromApi_resume r s = (Ok v, s') ->
  exists status statusText data t,
    r = Response status statusText (Encoding data)
    /\ response_ok status = true
    /\ data <> JNull
    /\ Date_new (member (VJson data) "expiration") = Ok (Some t)
    /\ v = credentials_of (VJson data) (Some t)
    /\ s' = set_localStorage (JSON_stringify v)
              (log (Info_obtained (toISOString t)) s).
Proof.
  destruct r as [| status statusText body]; [discriminate |].
  destruct (response_ok status) eqn:Hok.
  - rewrite fetchCredentialsFromApi_resume_2xx by exact Hok.
    destruct body as [raw | data]; [discriminate |].
    intros H. exists status, statusText, data.
    destruct data; try discriminate;
      match type of H with
      | context [Date_new ?x] =>
          destruct (Date_new x) as [[t |] | e] eqn:Ed; try discriminate
      end;
      cbv zeta in H; injection H as <- <-;
      exists t; repeat split; try reflexivity; try exact Ed; try exact Hok;
      discriminate.
  - rewrite fetchCredentialsFromApi_resume_not_2xx by exact Hok. discriminate.
Qed.

(** A failure of the fetcher leaves the state as it was. *)
Lemma fetchCredentialsFromApi_resume_Throw (r : reply) (s s' : state) (e : error) :
  fetchCredentialsFromApi_resume r s = (Throw e, s') -> s' = s.
Proof.
  destruct r as [| status statusText body].
  - intros H. injection H as _ <-. reflexivity.
  - destruct (response_ok status) eqn:Hok.
    + rewrite fetchCredentialsFromApi_resume_2xx by exact Hok.
      destruct body as [raw | data]; [intros H; injection H as _ <-; reflexivity |].
      destruct data;
        try (intros H; injection H as _ <-; reflexivity);
        match goal with
        | |- context [Date_new ?x] => destruct (Date_new x) as [[t |] | e']
        end; intros H; try discriminate; injection H as _ <-; reflexivity.
    + rewrite fetchCredentialsFromApi_resume_not_2xx by exact Hok.
      intros H. injection H as _ <-. reflexivity.
Qed.

(** What [JSON.stringify] keeps of a fetched record: the three fields as the
    body gave them, and the expiration as an ISO string. *)
Lemma stored_record (data : json) (t : Z) :
  exists members,
    JSON_stringify (credentials_of (VJson data) (Some t))
    = Some (Encoding (JObj members))
    /\ member (VJson (JObj members)) "accessKeyId"
       = member (VJson data) "accessKeyId"
    /\ member (VJson (JObj members)) "secretAccessKey"
       = member (VJson data) "secretAccessKey"
    /\ member (VJson (JObj members)) "sessionToken"
       = member (VJson data) "sessionToken"
    /\ member (VJson (JObj members)) "expiration"
       = VJson (JStr (toISOString t)).
Proof.
  unfold JSON_stringify, credentials_of.
  destruct (member_json data "accessKeyId") as [Ea | [ja Ea]];
  destruct (member_json data "secretAccessKey") as [Eb | [jb Eb]];
  destruct (member_json data "sessionToken") as [Ec | [jc Ec]];
  rewrite Ea, Eb, Ec; eexists; (split; [reflexivity |]);
  repeat split; reflexivity.
Qed.

(** The validity check on a state whose store holds a fetched record. *)
Lemma hasValidAwsCredentials_fetched (data : json) (t : Z) (s : state) :
  in_time_range t ->
  localStorage s = JSON_stringify (credentials_of (VJson data) (Some t)) ->
  hasValidAwsCredentials s =
  (Ok (fields_present (credentials_of (VJson data) (Some t))
       && (now s + 300000 <? t)), s).
Proof.
  intros Ht Hs.
  destruct (stored_record data t) as (ms & Hms & Ha & Hb & Hc & He).
  rewrite hasValidAwsCredentials_eq.
  assert (stored_value s = VJson (JObj ms)) as ->
    by (unfold stored_value; rewrite Hs, Hms; reflexivity).
  unfold fields_present, credentials_of.
  change (OptGet (VJson (JObj ms))) with (member (VJson (JObj ms))).
  rewrite Ha, Hb, Hc, He.
  set (a := member (VJson data) "accessKeyId").
  set (b := member (VJson data) "secretAccessKey").
  set (c := member (VJson data) "sessionToken").
  cbn [OptGet member lookup String.eqb Ascii.eqb Bool.eqb].
  cbn [eq_null negb Date_new bind_result].
  rewrite Date_parse_toISOString by exact Ht.
  rewrite !andb_true_r.
  destruct (negb (eq_null a) && negb (eq_null b) && negb (eq_null c));
    reflexivity.
Qed.

End Fetching.

(** ** The schedule *)

Section Schedule.
Context {DF : DateFormat}.
Variable CREDENTIAL_CONFIG : config.

Lemma quiet_refl (s : state) : quiet s s.
Proof.
  repeat split; try reflexivity.
  exists (fun _ => true). induction (timers s) as [| t l IH]; simpl; congruence.
Qed.

Lemma quiet_trans (s1 s2 s3 : state) : quiet s1 s2 -> quiet s2 s3 -> quiet s1 s3.
Proof.
  intros ([p Hp] & Hi & Hn & Hs) ([q Hq] & Hi' & Hn' & Hs').
  repeat split; try congruence.
  exists (fun t => p t && q t). rewrite Hq, Hp. clear.
  induction (timers s1) as [| t l IH]; simpl; [reflexivity |].
  destruct (p t); simpl; [destruct (q t) |]; rewrite IH; reflexivity.
Qed.

Lemma quiet_same (s s' : state) :
  timers s' = timers s ->
  credentialRefreshTimerId s' = credentialRefreshTimerId s ->
  next_timer_id s' = next_timer_id s ->
  starts s' = starts s ->
  quiet s s'.
Proof.
  intros Ht Hi Hn Hs. destruct (quiet_refl s) as ([p Hp] & _).
  repeat split; try assumption. exists p. congruence.
Qed.

Lemma filter_single (p : timer -> bool) (s s' : state) :
  timers s' = filter p (timers s) ->
  credentialRefreshTimerId s' = credentialRefreshTimerId s ->
  single_timer s -> single_timer s'.
Proof.
  unfold single_timer. intros Ht Hi. rewrite Ht, Hi.
  destruct (timers s) as [| t [| t' l]]; simpl; try contradiction; auto.
  destruct (p t); auto.
Qed.

Lemma quiet_single (s s' : state) : quiet s s' -> single_timer s -> single_timer s'.
Proof. intros ([p Hp] & Hi & _). eapply filter_single; eassumption. Qed.

Lemma quiet_empty (s s' : state) : quiet s s' -> timers s = [] -> timers s' = [].
Proof. intros ([p Hp] & _) E. rewrite Hp, E. reflexivity. Qed.

Lemma quiet_restart (s1 s2 s3 : state) : quiet s1 s2 -> restart s2 s3 -> restart s1 s3.
Proof.
  intros Hq [Hs Hi]. split.
  - destruct Hq as (_ & _ & _ & E). congruence.
  - intros H. apply Hi. eapply quiet_single; eassumption.
Qed.

Lemma restart_quiet (s1 s2 s3 : state) : restart s1 s2 -> quiet s2 s3 -> restart s1 s3.
Proof.
  intros [Hs Hi] Hq. split.
  - destruct Hq as (_ & _ & _ & E). congruence.
  - intros H. eapply quiet_single; [eassumption |]. auto.
Qed.

Lemma quiet_log (l : line) (s : state) : quiet s (log l s).
Proof. apply quiet_same; reflexivity. Qed.

Lemma quiet_set_localStorage (x : option text) (s : state) :
  quiet s (set_localStorage x s).
Proof. apply quiet_same; reflexivity. Qed.

Lemma quiet_remove_timer (id : positive) (s : state) : quiet s (remove_timer id s).
Proof. repeat split; try reflexivity. eexists. reflexivity. Qed.

Lemma quiet_remove_request (i : nat) (s : state) : quiet s (remove_request i s).
Proof. apply quiet_same; reflexivity. Qed.

Lemma quiet_park {A} (who : awaiting) (r : result (suspension A)) (s : state) :
  quiet s (park who (r, s)).
Proof.
  destruct r as [[a |] | e]; simpl; try apply quiet_refl.
  apply quiet_same; reflexivity.
Qed.

Lemma quiet_getValidAwsCredentials (s : state) :
  quiet s (snd (getValidAwsCredentials CREDENTIAL_CONFIG s)).
Proof.
  rewrite getValidAwsCredentials_eq.
  destruct (fst (hasValidAwsCredentials s)) as [[|] | e]; simpl;
    try apply quiet_refl; try apply quiet_log.
  destruct (unset (credentialVendingApiUrl CREDENTIAL_CONFIG)); simpl;
    [apply quiet_log | apply quiet_same; reflexivity].
Qed.

Lemma quiet_fetchCredentialsFromApi_resume (r : reply) (s : state) :
  quiet s (snd (fetchCredentialsFromApi_resume r s)).
Proof.
  destruct (fetchCredentialsFromApi_resume r s) as [[v | e] s'] eqn:E; simpl.
  - apply fetchCredentialsFromApi_resume_Ok in E
      as (status & statusText & data & t & _ & _ & _ & _ & _ & ->).
    apply quiet_same; reflexivity.
  - apply fetchCredentialsFromApi_resume_Throw in E as ->. apply quiet_refl.
Qed.

Lemma quiet_getValidAwsCredentials_resume (r : reply) (s : state) :
  quiet s (snd (getValidAwsCredentials_resume r s)).
Proof.
  rewrite getValidAwsCredentials_resume_eq.
  pose proof (quiet_fetchCredentialsFromApi_resume r s) as H.
  destruct (fetchCredentialsFromApi_resume r s) as [[v | e] s']; simpl in *.
  - exact H.
  - eapply quiet_trans; [exact H | apply quiet_log].
Qed.

Lemma cleared_timers (s : state) : single_timer s -> timers (cleared s) = [].
Proof.
  unfold single_timer, cleared.
  destruct (timers s) as [| t [| t' l]] eqn:Et; try contradiction.
  - intros _. destruct (credentialRefreshTimerId s); simpl;
      try rewrite Et; reflexivity.
  - intros ->. simpl. try rewrite Et. simpl. rewrite Pos.eqb_refl. reflexivity.
Qed.

Lemma restart_startCredentialRefreshTimer (s : state) :
  restart s (snd (startCredentialRefreshTimer s)).
Proof.
  rewrite startCredentialRefreshTimer_eq. cbv zeta. split.
  - destruct (negb (truthy (OptGet (stored_value s) "expiration")));
      [| destruct (Date_new (OptGet (stored_value s) "expiration"))];
      unfold cleared; destruct (credentialRefreshTimerId s); reflexivity.
  - intros H. apply cleared_timers in H.
    destruct (negb (truthy (OptGet (stored_value s) "expiration")));
      [| destruct (Date_new (OptGet (stored_value s) "expiration"))];
      unfold single_timer, arm, setTimeout, log; fields; rewrite H; simpl; auto.
Qed.

(** A timer callback, whole or resumed: quiet, or one restart. *)
Lemma callback_schedule (j : job) (s : state) :
  let s' := snd (callback CREDENTIAL_CONFIG j s) in quiet s s' \/ restart s s'.
Proof.
  cbv zeta. rewrite callback_eq.
  assert (quiet s (before_getValid j s)) as H0
    by (destruct j; [apply quiet_refl | apply quiet_set_localStorage]).
  pose proof (quiet_getValidAwsCredentials (before_getValid j s)) as H1.
  destruct (getValidAwsCredentials CREDENTIAL_CONFIG (before_getValid j s))
    as [[[v |] | e] s1]; simpl in H1.
  - right. pose proof (restart_startCredentialRefreshTimer s1) as H2.
    destruct (startCredentialRefreshTimer s1) as [[[] | e] s2]; simpl in *.
    + eapply quiet_restart; [eapply quiet_trans; eassumption | exact H2].
    + eapply restart_quiet; [| apply quiet_log].
      eapply quiet_restart; [eapply quiet_trans; eassumption | exact H2].
  - left. simpl. eapply quiet_trans; eassumption.
  - left. simpl. eapply quiet_trans; [eapply quiet_trans; eassumption |].
    apply quiet_log.
Qed.

Lemma callback_resume_schedule (j : job) (r : reply) (s : state) :
  let s' := snd (callback_resume j r s) in quiet s s' \/ restart s s'.
Proof.
  cbv zeta. rewrite callback_resume_eq.
  pose proof (quiet_getValidAwsCredentials_resume r s) as H1.
  destruct (getValidAwsCredentials_resume r s) as [[v | e] s1]; simpl in H1.
  - right. pose proof (restart_startCredentialRefreshTimer s1) as H2.
    destruct (startCredentialRefreshTimer s1) as [[[] | e] s2]; simpl in *.
    + eapply quiet_restart; eassumption.
    + eapply restart_quiet; [| apply quiet_log].
      eapply quiet_restart; eassumption.
  - left. simpl. eapply quiet_trans; [eassumption | apply quiet_log].
Qed.

Lemma quiet_logout (s : state) : quiet s (snd (logout s)).
Proof.
  rewrite logout_eq. simpl.
  destruct (credentialRefreshTimerId s) as [i |].
  - repeat split; try reflexivity. eexists. reflexivity.
  - apply quiet_same; reflexivity.
Qed.

(** Every turn of the event loop is quiet or one restart. *)
Lemma step_schedule (s s' : state) (e : event) :
  step CREDENTIAL_CONFIG s e = Some s' -> quiet s s' \/ restart s s'.
Proof.
  destruct e as [| | | | id | i r | ms]; simpl.
  - intros H. injection H as <-. right. apply restart_startCredentialRefreshTimer.
  - intros H. injection H as <-. left.
    pose proof (quiet_getValidAwsCredentials s) as Hq.
    destruct (getValidAwsCredentials CREDENTIAL_CONFIG s) as [r s1].
    eapply quiet_trans; [exact Hq | apply quiet_park].
  - intros H. injection H as <-. left.
    rewrite hasValidAwsCredentials_state. apply quiet_refl.
  - intros H. injection H as <-. left. apply quiet_logout.
  - destruct (find_timer id s) as [t |]; [| discriminate].
    intros H. injection H as <-.
    pose proof (callback_schedule (timer_job t) (remove_timer id s)) as Hc.
    cbv zeta in Hc.
    destruct (callback CREDENTIAL_CONFIG (timer_job t) (remove_timer id s))
      as [r s1]. simpl in Hc.
    destruct Hc as [Hc | Hc].
    + left. eapply quiet_trans; [apply quiet_remove_timer |].
      eapply quiet_trans; [exact Hc | apply quiet_park].
    + right. eapply restart_quiet; [| apply quiet_park].
      eapply quiet_restart; [apply quiet_remove_timer | exact Hc].
  - destruct (nth_error (requests s) i) as [[| j] |]; [| | discriminate].
    + intros H. injection H as <-. left.
      eapply quiet_trans; [apply quiet_remove_request |].
      apply quiet_getValidAwsCredentials_resume.
    + intros H. injection H as <-.
      destruct (callback_resume_schedule j r (remove_request i s)) as [Hc | Hc].
      * left. eapply quiet_trans; [apply quiet_remove_request | exact Hc].
      * right. eapply quiet_restart; [apply quiet_remove_request | exact Hc].
  - destruct (0 <=? ms); [| discriminate].
    intros H. injection H as <-. left. apply quiet_same; reflexivity.
Qed.

Lemma step_single_timer (s s' : state) (e : event) :
  step CREDENTIAL_CONFIG s e = Some s' -> single_timer s -> single_timer s'.
Proof.
  intros H. apply step_schedule in H as [H | [_ H]].
  - apply quiet_single, H.
  - exact H.
Qed.

Lemma reachable_single_timer (s : state) :
  reachable CREDENTIAL_CONFIG s -> single_timer s.
Proof.
  induction 1 as [s (_ & Ht & _) | s e s' _ IH Hstep].
  - unfold single_timer. rewrite Ht. exact I.
  - eapply step_single_timer; eassumption.
Qed.

(** A property of states that quiet turns keep and that
    [startCredentialRefreshTimer] keeps is kept by every turn of the event
    loop. *)
Section Kept_by_every_turn.
Variable Inv : state -> Prop.
Hypothesis Inv_quiet : forall s s', quiet s s' -> Inv s -> Inv s'.
Hypothesis Inv_start :
  forall s, Inv s -> Inv (snd (startCredentialRefreshTimer s)).

Lemma callback_keeps (j : job) (s : state) :
  Inv s -> Inv (snd (callback CREDENTIAL_CONFIG j s)).
Proof.
  intros Hi. rewrite callback_eq.
  assert (Inv (before_getValid j s)) as H0.
  { refine (Inv_quiet _ _ _ Hi).
    destruct j; [apply quiet_refl | apply quiet_set_localStorage]. }
  pose proof (Inv_quiet _ _ (quiet_getValidAwsCredentials (before_getValid j s)) H0)
    as H1.
  destruct (getValidAwsCredentials CREDENTIAL_CONFIG (before_getValid j s))
    as [[[v |] | e] s1]; cbn [snd] in H1.
  - pose proof (Inv_start s1 H1) as H2.
    destruct (startCredentialRefreshTimer s1) as [[[] | e] s2]; cbn [snd] in *.
    + exact H2.
    + exact (Inv_quiet _ _ (quiet_log _ _) H2).
  - exact H1.
  - cbn [snd]. exact (Inv_quiet _ _ (quiet_log _ _) H1).
Qed.

Lemma callback_resume_keeps (j : job) (r : reply) (s : state) :
  Inv s -> Inv (snd (callback_resume j r s)).
Proof.
  intros Hi. rewrite callback_resume_eq.
  pose proof (Inv_quiet _ _ (quiet_getValidAwsCredentials_resume r s) Hi) as H1.
  destruct (getValidAwsCredentials_resume r s) as [[v | e] s1]; cbn [snd] in H1.
  - pose proof (Inv_start s1 H1) as H2.
    destruct (startCredentialRefreshTimer s1) as [[[] | e] s2]; cbn [snd] in *.
    + exact H2.
    + exact (Inv_quiet _ _ (quiet_log _ _) H2).
  - cbn [snd]. exact (Inv_quiet _ _ (quiet_log _ _) H1).
Qed.

Lemma step_keeps (s s' : state) (e : event) :
  step CREDENTIAL_CONFIG s e = Some s' -> Inv s -> Inv s'.
Proof.
  intros Hstep Hi.
  destruct (step_schedule s s' e Hstep) as [Hq | _];
    [exact (Inv_quiet _ _ Hq Hi) |].
  destruct e as [| | | | id | i r | ms]; simpl in Hstep.
  - injection Hstep as <-. apply Inv_start, Hi.
  - injection Hstep as <-.
    pose proof (Inv_quiet _ _ (quiet_getValidAwsCredentials s) Hi) as H1.
    destruct (getValidAwsCredentials CREDENTIAL_CONFIG s) as [r s1].
    exact (Inv_quiet _ _ (quiet_park _ _ _) H1).
  - injection Hstep as <-. rewrite hasValidAwsCredentials_state. exact Hi.
  - injection Hstep as <-. exact (Inv_quiet _ _ (quiet_logout s) Hi).
  - destruct (find_timer id s) as [t |]; [| discriminate].
    injection Hstep as <-.
    pose proof (callback_keeps (timer_job t) (remove_timer id s)
                  (Inv_quiet _ _ (quiet_remove_timer id s) Hi)) as H1.
    destruct (callback CREDENTIAL_CONFIG (timer_job t) (remove_timer id s))
      as [r s1].
    exact (Inv_quiet _ _ (quiet_park _ _ _) H1).
  - destruct (nth_error (requests s) i) as [[| j] |]; [| | discriminate];
      injection Hstep as <-.
    + refine (Inv_quiet _ _ (quiet_getValidAwsCredentials_resume r _) _).
      exact (Inv_quiet _ _ (quiet_remove_request i s) Hi).
    + apply callback_resume_keeps.
      exact (Inv_quiet _ _ (quiet_remove_request i s) Hi).
  - destruct (0 <=? ms); [| discriminate].
    injection Hstep as <-. refine (Inv_quiet _ _ _ Hi).
    apply quiet_same; reflexivity.
Qed.

End Kept_by_every_turn.

Lemma quiet_ids_handed_out (s s' : state) :
  quiet s s' -> ids_handed_out s -> ids_handed_out s'.
Proof.
  intros ([p Hp] & _ & Hn & _) H t Ht. rewrite Hn. apply H.
  rewrite Hp in Ht. apply filter_In in Ht. apply Ht.
Qed.

Lemma next_timer_id_startCredentialRefreshTimer (s : state) :
  fst (startCredentialRefreshTimer s) = Ok tt ->
  next_timer_id (snd (startCredentialRefreshTimer s)) = Pos.succ (next_timer_id s).
Proof.
  rewrite startCredentialRefreshTimer_eq. cbv zeta.
  destruct (negb (truthy (OptGet (stored_value s) "expiration")));
    [| destruct (Date_new (OptGet (stored_value s) "expiration"));
       [| discriminate]];
    intros _; unfold cleared; destruct (credentialRefreshTimerId s); reflexivity.
Qed.

Lemma In_timers_cleared (s : state) (t : timer) :
  In t (timers (cleared s)) -> In t (timers s).
Proof.
  unfold cleared. destruct (credentialRefreshTimerId s) as [i |]; fields.
  - intros H. apply filter_In in H. apply H.
  - auto.
Qed.

Lemma startCredentialRefreshTimer_ids_handed_out (s : state) :
  ids_handed_out s -> ids_handed_out (snd (startCredentialRefreshTimer s)).
Proof.
  intros H t. rewrite startCredentialRefreshTimer_eq. cbv zeta.
  assert (next_timer_id (cleared s) = next_timer_id s) as Hn
    by (unfold cleared; destruct (credentialRefreshTimerId s); reflexivity).
  destruct (negb (truthy (OptGet (stored_value s) "expiration")));
    [| destruct (Date_new (OptGet (stored_value s) "expiration"))];
    unfold arm, setTimeout, log; fields; try rewrite Hn.
  - intros Ht. apply in_app_or in Ht as [Ht | [<- | []]].
    + apply In_timers_cleared, H in Ht. lia.
    + simpl. lia.
  - intros Ht. apply in_app_or in Ht as [Ht | [<- | []]].
    + apply In_timers_cleared, H in Ht. lia.
    + simpl. lia.
  - intros Ht. apply In_timers_cleared, H in Ht. exact Ht.
Qed.

Lemma reachable_ids_handed_out (s : state) :
  reachable CREDENTIAL_CONFIG s -> ids_handed_out s.
Proof.
  induction 1 as [s (_ & Ht & _) | s e s' _ IH Hstep].
  - intros t. rewrite Ht. intros [].
  - revert Hstep IH. apply step_keeps.
    + apply quiet_ids_handed_out.
    + apply startCredentialRefreshTimer_ids_handed_out.
Qed.

End Schedule.

(** ** Arming *)

Section Arming.
Context {DF : DateFormat}.
Variable CREDENTIAL_CONFIG : config.

Lemma json_array_ind (P : json -> Prop) :
  P JNull -> (forall b, P (JBool b)) -> (forall n, P (JNum n)) ->
  (forall s, P (JStr s)) ->
  (forall items, Forall P items -> P (JArr items)) ->
  (forall members, P (JObj members)) ->
  forall j, P j.
Proof.
  intros Hnull Hbool Hnum Hstr Harr Hobj. fix IH 1.
  intros [| b | n | s | items | members].
  - exact Hnull.
  - apply Hbool.
  - apply Hnum.
  - apply Hstr.
  - apply Harr. induction items as [| x rest IHrest]; constructor.
    + apply IH.
    + exact IHrest.
  - apply Hobj.
Qed.

Lemma ToString_throws (j : json) :
  forall e : error, ToString j = Throw e -> e = TypeError.
Proof.
  induction j as [| b | n | s | items Hitems | members] using json_array_ind;
    intros e; cbn [ToString]; try discriminate.
  - revert e. induction Hitems as [| x rest Hx Hrest IHrest]; intros e.
    + discriminate.
    + simpl. destruct (match x with JNull => Ok "" | _ => ToString x end)
        as [sx | ex] eqn:Ex; cbn [bind_result].
      * destruct rest as [| y rest']; [discriminate |].
        intros H.
        match type of H with
        | bind_result ?m _ = _ => destruct m as [sr | er] eqn:Er
        end; [discriminate |].
        cbn [bind_result] in H. injection H as <-.
        apply IHrest. exact Er.
      * intros H. injection H as <-.
        destruct x; try discriminate; apply Hx; exact Ex.
  - destruct (has_own "toString" members); [| discriminate].
    intros H. injection H as <-. reflexivity.
Qed.

Lemma Date_new_throws (v : value) (e : error) :
  Date_new v = Throw e -> e = TypeError.
Proof.
  destruct v as [| j | [t |] | members]; cbn [Date_new]; try discriminate.
  - destruct j as [| [|] | n | s | items | members]; try discriminate.
    + destruct (ToString (JArr items)) eqn:E; [discriminate |].
      cbn [bind_result]. intros H. injection H as <-.
      eapply ToString_throws; eassumption.
    + destruct (ToString (JObj members)) eqn:E; [discriminate |].
      cbn [bind_result]. intros H. injection H as <-.
      eapply ToString_throws; eassumption.
  - destruct (has_own "toString" members); [| discriminate].
    intros H. injection H as <-. reflexivity.
Qed.

Lemma refresh_delay_Some (t now : Z) :
  refresh_delay (Some t) now = Some (Z.max 0 (t - now - 5 * 60 * 1000)).
Proof.
  unfold refresh_delay. cbn [num_sub num_lt].
  destruct (t - now - 5 * 60 * 1000 <? 0) eqn:E;
    [apply Z.ltb_lt in E | apply Z.ltb_ge in E]; f_equal; lia.
Qed.

(** With no truthy expiration in the store the fallback is armed. *)
Lemma startCredentialRefreshTimer_fallback (s : state) :
  truthy (OptGet (stored_value s) "expiration") = false ->
  fst (startCredentialRefreshTimer s) = Ok tt
  /\ rearmed s (snd (startCredentialRefreshTimer s))
       {| timer_id := next_timer_id s; timer_delay := Some 2000;
          timer_job := Prefetch |}.
Proof.
  intros Ht. rewrite startCredentialRefreshTimer_eq. cbv zeta. rewrite Ht.
  cbn [negb]. cbv iota. split; [reflexivity |].
  unfold rearmed, cleared.
  destruct (credentialRefreshTimerId s); repeat split; reflexivity.
Qed.

(** With a truthy expiration that converts to the time value [n], a refresh
    is armed at the delay computed from [n]. *)
Lemma startCredentialRefreshTimer_refresh (s : state) (n : number) :
  truthy (OptGet (stored_value s) "expiration") = true ->
  Date_new (OptGet (stored_value s) "expiration") = Ok n ->
  fst (startCredentialRefreshTimer s) = Ok tt
  /\ rearmed s (snd (startCredentialRefreshTimer s))
       {| timer_id := next_timer_id s;
          timer_delay := refresh_delay n (now s);
          timer_job := Refresh |}.
Proof.
  intros Ht Hd. rewrite startCredentialRefreshTimer_eq. cbv zeta.
  rewrite Ht, Hd. cbn [negb]. cbv iota. split; [reflexivity |].
  unfold rearmed, cleared.
  destruct (credentialRefreshTimerId s); repeat split; reflexivity.
Qed.

(** The only way [startCredentialRefreshTimer] throws. *)
Lemma startCredentialRefreshTimer_Ok (s : state) :
  (forall e, Date_new (OptGet (stored_value s) "expiration") <> Throw e) ->
  exists t, fst (startCredentialRefreshTimer s) = Ok tt
            /\ rearmed s (snd (startCredentialRefreshTimer s)) t.
Proof.
  intros Hd.
  destruct (truthy (OptGet (stored_value s) "expiration")) eqn:Ht.
  - destruct (Date_new (OptGet (stored_value s) "expiration")) as [n | e] eqn:En.
    + eexists. apply startCredentialRefreshTimer_refresh; eassumption.
    + exfalso. apply (Hd e). reflexivity.
  - eexists. apply startCredentialRefreshTimer_fallback. exact Ht.
Qed.

Lemma startCredentialRefreshTimer_storage (s : state) :
  localStorage (snd (startCredentialRefreshTimer s)) = localStorage s.
Proof.
  rewrite startCredentialRefreshTimer_eq. cbv zeta.
  destruct (negb (truthy (OptGet (stored_value s) "expiration")));
    [| destruct (Date_new (OptGet (stored_value s) "expiration"))];
    unfold cleared; destruct (credentialRefreshTimerId s); reflexivity.
Qed.

Lemma rearmed_single (s s' : state) (t : timer) :
  single_timer s -> rearmed s s' t -> timers s' = [t].
Proof.
  intros Hs (Ht & _). rewrite Ht, (cleared_timers s Hs). reflexivity.
Qed.

(** A valid store never makes [startCredentialRefreshTimer] throw. *)
Lemma valid_converts (s : state) :
  fst (hasValidAwsCredentials s) = Ok true ->
  forall e, Date_new (OptGet (stored_value s) "expiration") <> Throw e.
Proof.
  rewrite hasValidAwsCredentials_eq. cbn [fst].
  destruct (fields_present (stored_value s)); [| discriminate].
  destruct (Date_new (OptGet (stored_value s) "expiration")); [| discriminate].
  intros _ e. discriminate.
Qed.

End Arming.

(** ** Statements of the specification *)

Section Check_and_arm.
Context {DF : DateFormat}.
Variable CREDENTIAL_CONFIG : config.

(** C2.  [hasValidAwsCredentials] changes nothing and, at the clock [now s],
    returns false when no record is stored, when the stored text is not
    JSON, and when one of accessKeyId, secretAccessKey, sessionToken and
    expiration is missing or null; when the four are there it returns true
    exactly when the expiration converts to a time [t] with
    [now s + 5 min < t]. *)
Theorem hasValidAwsCredentials_correct (s : state) :
  snd (hasValidAwsCredentials s) = s
  /\ (localStorage s = None -> fst (hasValidAwsCredentials s) = Ok false)
  /\ (forall raw, localStorage s = Some (Malformed raw) ->
        fst (hasValidAwsCredentials s) = Ok false)
  /\ (forall j, localStorage s = Some (Encoding j) ->
        eq_null (OptGet (VJson j) "accessKeyId") = true
        \/ eq_null (OptGet (VJson j) "secretAccessKey") = true
        \/ eq_null (OptGet (VJson j) "sessionToken") = true
        \/ eq_null (OptGet (VJson j) "expiration") = true ->
        fst (hasValidAwsCredentials s) = Ok false)
  /\ (forall j, localStorage s = Some (Encoding j) ->
        eq_null (OptGet (VJson j) "accessKeyId") = false ->
        eq_null (OptGet (VJson j) "secretAccessKey") = false ->
        eq_null (OptGet (VJson j) "sessionToken") = false ->
        eq_null (OptGet (VJson j) "expiration") = false ->
        (fst (hasValidAwsCredentials s) = Ok true <->
         exists t, Date_new (OptGet (VJson j) "expiration") = Ok (Some t)
                   /\ now s + 5 * 60 * 1000 < t)).
Proof.
  split; [apply hasValidAwsCredentials_state |].
  rewrite hasValidAwsCredentials_eq. cbn [fst].
  unfold stored_value, fields_present.
  split; [intros ->; reflexivity |].
  split; [intros raw ->; reflexivity |].
  split.
  - intros j -> [H | [H | [H | H]]]; rewrite H; cbn [negb andb];
      rewrite ?andb_false_r; reflexivity.
  - intros j -> Ha Hb Hc He. rewrite Ha, Hb, Hc, He. cbn [negb andb].
    destruct (Date_new (OptGet (VJson j) "expiration")) as [[t |] | e];
      cbn [bind_result num_lt].
    + split.
      * intros H. injection H as H. apply Z.ltb_lt in H.
        exists t. split; [reflexivity | lia].
      * intros (t' & E & H). injection E as <-. f_equal. apply Z.ltb_lt. lia.
    + split; [discriminate | intros (t' & E & _); discriminate].
    + split; [discriminate | intros (t' & E & _); discriminate].
Qed.

(** C7.  Starting the scheduler on a store whose record has an expiration
    (the field is truthy and converts to the time [t]) arms a refresh timer
    with delay [max 0 (t - now - 5 min)]; on a store with no record, or with
    a record that has no expiration, it arms the pre-fetch timer with the
    fixed delay of 2000 ms. *)
Theorem startCredentialRefreshTimer_delay (s : state) :
  (forall t,
     truthy (OptGet (stored_value s) "expiration") = true ->
     Date_new (OptGet (stored_value s) "expiration") = Ok (Some t) ->
     fst (startCredentialRefreshTimer s) = Ok tt
     /\ rearmed s (snd (startCredentialRefreshTimer s))
          {| timer_id := next_timer_id s;
             timer_delay := Some (Z.max 0 (t - now s - 5 * 60 * 1000));
             timer_job := Refresh |})
  /\ (truthy (OptGet (stored_value s) "expiration") = false ->
      fst (startCredentialRefreshTimer s) = Ok tt
      /\ rearmed s (snd (startCredentialRefreshTimer s))
           {| timer_id := next_timer_id s; timer_delay := Some 2000;
              timer_job := Prefetch |})
  /\ (localStorage s = None ->
      truthy (OptGet (stored_value s) "expiration") = false).
Proof.
  split; [| split].
  - intros t Ht Hd. rewrite <- refresh_delay_Some.
    apply startCredentialRefreshTimer_refresh; assumption.
  - apply startCredentialRefreshTimer_fallback.
  - intros E. unfold stored_value. rewrite E. reflexivity.
Qed.

(** C6.  In every reachable state at most one timer is pending.  Every call
    of [startCredentialRefreshTimer] cancels the timer that was pending:
    after the call that timer is not on the schedule and cannot run out.
    Unless the stored expiration makes [new Date] throw, the call returns
    and leaves exactly one pending timer, the new one, whose id the module
    holds; a second call right after it returns too and again leaves exactly
    one, its own: the timer of the first call is cancelled, so that of the
    two timers armed only the second can run out.  When [new Date] throws,
    the call throws after the cancelling and no timer is pending. *)
Theorem single_pending_timer (s : state) :
  reachable CREDENTIAL_CONFIG s ->
  let expiration := OptGet (stored_value s) "expiration" in
  let s1 := snd (startCredentialRefreshTimer s) in
  let s2 := snd (startCredentialRefreshTimer s1) in
  (List.length (timers s) <= 1)%nat
  /\ (forall t, In t (timers s) ->
        find_timer (timer_id t) s1 = None
        /\ step CREDENTIAL_CONFIG s1 (Timeout (timer_id t)) = None)
  /\ ((forall e, Date_new expiration <> Throw e) ->
      exists t1 t2,
        fst (startCredentialRefreshTimer s) = Ok tt
        /\ timers s1 = [t1]
        /\ timer_id t1 = next_timer_id s
        /\ credentialRefreshTimerId s1 = Some (timer_id t1)
        /\ fst (startCredentialRefreshTimer s1) = Ok tt
        /\ timers s2 = [t2]
        /\ timer_id t2 = next_timer_id s1
        /\ credentialRefreshTimerId s2 = Some (timer_id t2)
        /\ timer_id t2 <> timer_id t1
        /\ step CREDENTIAL_CONFIG s2 (Timeout (timer_id t1)) = None
        /\ step CREDENTIAL_CONFIG s2 (Timeout (timer_id t2)) <> None)
  /\ (forall e, Date_new expiration = Throw e ->
        fst (startCredentialRefreshTimer s) = Throw e /\ timers s1 = []).
Proof.
  intros Hr. cbv zeta.
  pose proof (reachable_single_timer _ _ Hr) as Hs.
  pose proof (reachable_ids_handed_out _ _ Hr) as Hf.
  split; [| split; [| split]].
  - unfold single_timer in Hs.
    destruct (timers s) as [| t [| t' l]]; simpl; [lia | lia | contradiction].
  - intros t Ht.
    assert (find_timer (timer_id t) (snd (startCredentialRefreshTimer s)) = None)
      as Hgone.
    { pose proof (Hf t Ht) as Hlt.
      rewrite startCredentialRefreshTimer_eq. cbv zeta.
      destruct (negb (truthy (OptGet (stored_value s) "expiration")));
        [| destruct (Date_new (OptGet (stored_value s) "expiration"))];
        unfold find_timer, arm, setTimeout, log; fields;
        rewrite (cleared_timers s Hs); cbn [app find timer_id];
        try reflexivity;
        assert (next_timer_id (cleared s) = next_timer_id s) as ->
          by (unfold cleared; destruct (credentialRefreshTimerId s); reflexivity);
        (destruct (Pos.eqb_spec (next_timer_id s) (timer_id t)) as [E |];
         [lia | reflexivity]). }
    split; [exact Hgone |]. cbn [step]. rewrite Hgone. reflexivity.
  - intros Hd.
    destruct (startCredentialRefreshTimer_Ok s Hd) as (t1 & Hok1 & Hre1).
    set (s1 := snd (startCredentialRefreshTimer s)) in *.
    assert (single_timer s1) as Hs1
      by (apply (restart_startCredentialRefreshTimer s), Hs).
    assert (forall e,
              Date_new (OptGet (stored_value s1) "expiration") <> Throw e) as Hd1.
    { assert (stored_value s1 = stored_value s) as ->; [| exact Hd].
      apply stored_value_ext, startCredentialRefreshTimer_storage. }
    destruct (startCredentialRefreshTimer_Ok s1 Hd1) as (t2 & Hok2 & Hre2).
    pose proof (rearmed_single _ _ _ Hs Hre1) as Ht1.
    pose proof (rearmed_single _ _ _ Hs1 Hre2) as Ht2.
    destruct Hre1 as (_ & Hid1 & Hc1). destruct Hre2 as (_ & Hid2 & Hc2).
    assert (timer_id t2 <> timer_id t1) as Hne.
    { rewrite Hid2, Hid1. unfold s1.
      rewrite (next_timer_id_startCredentialRefreshTimer s Hok1). lia. }
    rewrite <- Hid1 in Hc1. rewrite <- Hid2 in Hc2.
    exists t1, t2. do 9 (split; [assumption |]).
    unfold step, find_timer. rewrite Ht2. cbn [find].
    rewrite Pos.eqb_refl.
    destruct (Pos.eqb_spec (timer_id t2) (timer_id t1)) as [E |];
      [contradiction |].
    split; [reflexivity | discriminate].
  - intros e He. rewrite startCredentialRefreshTimer_eq. cbv zeta.
    rewrite He.
    assert (truthy (OptGet (stored_value s) "expiration") = true) as ->.
    { destruct (OptGet (stored_value s) "expiration") as [| j | [t |] | members];
        cbn [Date_new] in He; try discriminate; [| reflexivity].
      destruct j as [| [|] | n | str | items | members]; try discriminate;
        reflexivity. }
    cbn [negb fst snd]. split; [reflexivity |]. apply cleared_timers, Hs.
Qed.

End Check_and_arm.

Ltac states :=
  cbn [park log job_error remove_timer remove_request
       localStorage credentialRefreshTimerId timers next_timer_id requests
       network_calls console now reloads starts
       set_localStorage set_credentialRefreshTimerId set_timers
       set_next_timer_id set_requests set_network_calls set_console set_now
       set_reloads set_starts fst snd].

Section Fire_and_logout.
Context {DF : DateFormat}.
Variable CREDENTIAL_CONFIG : config.

Lemma step_starts (s s' : state) (e : event) :
  step CREDENTIAL_CONFIG s e = Some s' -> (starts s <= starts s')%nat.
Proof.
  intros H. apply step_schedule in H as [(_ & _ & _ & H) | [H _]]; lia.
Qed.

Lemma run_starts (es : list event) :
  forall s s', run CREDENTIAL_CONFIG s es = Some s' -> (starts s <= starts s')%nat.
Proof.
  induction es as [| e es IH]; intros s s'; cbn [run].
  - intros H. injection H as <-. lia.
  - destruct (step CREDENTIAL_CONFIG s e) as [s1 |] eqn:E; [| discriminate].
    intros H. apply IH in H. apply step_starts in E. lia.
Qed.

(** While [startCredentialRefreshTimer] is not called, an empty schedule
    stays empty and no timer runs out. *)
Lemma run_without_start (es : list event) :
  forall s s',
    timers s = [] ->
    run CREDENTIAL_CONFIG s es = Some s' ->
    starts s' = starts s ->
    timers s' = [] /\ forallb (fun e => negb (is_Timeout e)) es = true.
Proof.
  induction es as [| e es IH]; intros s s' Ht; cbn [run].
  - intros H _. injection H as <-. split; [exact Ht | reflexivity].
  - destruct (step CREDENTIAL_CONFIG s e) as [s1 |] eqn:E; [| discriminate].
    intros Hrun Hst.
    pose proof (run_starts _ _ _ Hrun) as Hmono.
    pose proof (step_starts _ _ _ E) as Hmono1.
    pose proof (step_schedule _ _ _ _ E) as [Hq | [Hre _]]; [| lia].
    assert (timers s1 = []) as Ht1 by (eapply quiet_empty; eassumption).
    assert (starts s1 = starts s) as Hs1 by (destruct Hq as (_ & _ & _ & H); exact H).
    destruct (IH s1 s' Ht1 Hrun) as [H1 H2]; [congruence |].
    split; [exact H1 |].
    cbn [forallb]. rewrite H2, andb_true_r.
    destruct e; try reflexivity.
    simpl in E. unfold find_timer in E. rewrite Ht in E. discriminate.
Qed.

Lemma requests_getValidAwsCredentials (s : state) :
  requests (snd (getValidAwsCredentials CREDENTIAL_CONFIG s)) = requests s.
Proof.
  rewrite getValidAwsCredentials_eq.
  destruct (fst (hasValidAwsCredentials s)) as [[|] | e]; try reflexivity.
  destruct (unset (credentialVendingApiUrl CREDENTIAL_CONFIG)); reflexivity.
Qed.

Lemma requests_getValidAwsCredentials_resume (r : reply) (s : state) :
  requests (snd (getValidAwsCredentials_resume r s)) = requests s.
Proof.
  rewrite getValidAwsCredentials_resume_eq.
  destruct (fetchCredentialsFromApi_resume r s) as [[v | e] s'] eqn:E.
  - apply fetchCredentialsFromApi_resume_Ok in E
      as (status & statusText & data & t & _ & _ & _ & _ & _ & ->).
    reflexivity.
  - apply fetchCredentialsFromApi_resume_Throw in E as ->. reflexivity.
Qed.

Lemma forallb_remove {A} (p : A -> bool) (i : nat) (l : list A) :
  forallb p l = true -> forallb p (firstn i l ++ skipn (S i) l) = true.
Proof.
  revert i. induction l as [| x l IH]; intros i H.
  - destruct i; reflexivity.
  - cbn [forallb] in H. apply andb_true_iff in H as [Hx Hl].
    destruct i as [| i]; cbn [firstn skipn app forallb].
    + exact Hl.
    + rewrite Hx. apply IH, Hl.
Qed.

(** With an empty schedule and no timer callback waiting for a reply, only
    a call of [startCredentialRefreshTimer] by the application brings the
    scheduler back. *)
Lemma run_until_started (es : list event) :
  forall s s',
    timers s = [] ->
    no_callback_waits s = true ->
    run CREDENTIAL_CONFIG s es = Some s' ->
    forallb (fun e => negb (is_start_call e)) es = true ->
    timers s' = [] /\ starts s' = starts s
    /\ forallb (fun e => negb (is_Timeout e)) es = true.
Proof.
  induction es as [| e es IH]; intros s s' Ht Hw; cbn [run forallb].
  - intros H _. injection H as <-. split; [exact Ht |]. split; reflexivity.
  - destruct (step CREDENTIAL_CONFIG s e) as [s1 |] eqn:E; [| discriminate].
    intros Hrun Hes. apply andb_true_iff in Hes as [He Hes].
    assert (quiet s s1 /\ no_callback_waits s1 = true /\ is_Timeout e = false)
      as (Hq & Hw1 & Hne).
    { destruct e as [| | | | id | i r | ms]; cbn [step] in E;
        try discriminate He.
      - injection E as <-.
        pose proof (quiet_getValidAwsCredentials CREDENTIAL_CONFIG s) as Hq.
        pose proof (requests_getValidAwsCredentials s) as Hr.
        destruct (getValidAwsCredentials CREDENTIAL_CONFIG s) as [r s0].
        cbn [snd] in Hq, Hr. split; [| split; [| reflexivity]].
        + eapply quiet_trans; [exact Hq | apply quiet_park].
        + unfold no_callback_waits in *.
          destruct r as [[v |] | e]; cbn [park]; try (rewrite Hr; exact Hw).
          cbn [requests set_requests]. rewrite Hr, forallb_app, Hw. reflexivity.
      - injection E as <-. rewrite hasValidAwsCredentials_state.
        split; [apply quiet_refl | split; [exact Hw | reflexivity]].
      - injection E as <-. split; [apply quiet_logout |].
        split; [| reflexivity].
        unfold no_callback_waits in *. rewrite logout_eq. cbn [snd].
        destruct (credentialRefreshTimerId s); exact Hw.
      - unfold find_timer in E. rewrite Ht in E. discriminate.
      - unfold no_callback_waits in Hw.
        destruct (nth_error (requests s) i) as [[| j] |] eqn:En;
          [| | discriminate].
        + injection E as <-. split; [| split; [| reflexivity]].
          * eapply quiet_trans; [apply quiet_remove_request |].
            apply quiet_getValidAwsCredentials_resume.
          * unfold no_callback_waits.
            rewrite requests_getValidAwsCredentials_resume.
            cbn [remove_request requests set_requests].
            apply forallb_remove, Hw.
        + exfalso. apply nth_error_In in En.
          rewrite forallb_forall in Hw. apply Hw in En. discriminate.
      - destruct (0 <=? ms); [| discriminate]. injection E as <-.
        split; [apply quiet_same; reflexivity | split; [exact Hw | reflexivity]]. }
    assert (timers s1 = []) as Ht1 by (eapply quiet_empty; eassumption).
    destruct (IH s1 s' Ht1 Hw1 Hrun Hes) as (H1 & H2 & H3).
    destruct Hq as (_ & _ & _ & Hs1).
    split; [exact H1 |]. split; [congruence |].
    rewrite Hne, H3. reflexivity.
Qed.

(** C9.  In every reachable state [logout] deletes the stored record and
    cancels the pending timer: afterwards a read of the store gives no
    record and no timer is pending.  From then on, for as long as
    [startCredentialRefreshTimer] is not called no timer is pending and
    none runs out, so no fetch is made on the scheduler's account; and
    unless a timer callback was waiting for a reply when [logout] ran,
    only the application can make that call. *)
Theorem logout_stops_refresh (s : state) :
  reachable CREDENTIAL_CONFIG s ->
  let s' := snd (logout s) in
  fst (logout s) = Ok tt
  /\ localStorage s' = None
  /\ getAwsCredentialsFromStorage s' = (Ok (VJson JNull), s')
  /\ timers s' = []
  /\ (forall es s'',
        run CREDENTIAL_CONFIG s' es = Some s'' ->
        starts s'' = starts s' ->
        timers s'' = [] /\ forallb (fun e => negb (is_Timeout e)) es = true)
  /\ (no_callback_waits s = true ->
      forall es s'',
        run CREDENTIAL_CONFIG s' es = Some s'' ->
        forallb (fun e => negb (is_start_call e)) es = true ->
        timers s'' = [] /\ starts s'' = starts s'
        /\ forallb (fun e => negb (is_Timeout e)) es = true).
Proof.
  intros Hr s'. pose proof (reachable_single_timer _ _ Hr) as Hs.
  assert (localStorage s' = None) as Hls.
  { subst s'. rewrite logout_eq. cbn [snd].
    destruct (credentialRefreshTimerId s); reflexivity. }
  assert (timers s' = []) as Ht.
  { subst s'. rewrite logout_eq. cbn [snd]. unfold single_timer in Hs.
    destruct (timers s) as [| t [| t' l]] eqn:Et; try contradiction.
    - destruct (credentialRefreshTimerId s); fields; try rewrite Et; reflexivity.
    - rewrite Hs. fields. try rewrite Et. simpl. rewrite Pos.eqb_refl. reflexivity. }
  split; [rewrite logout_eq; reflexivity |].
  split; [exact Hls |].
  split.
  { rewrite getAwsCredentialsFromStorage_eq. unfold stored_value.
    rewrite Hls. reflexivity. }
  split; [exact Ht |].
  split.
  - intros es s'' Hrun Hst. eapply run_without_start; eassumption.
  - intros Hw es s'' Hrun Hes.
    eapply run_until_started; try eassumption.
    subst s'. unfold no_callback_waits in *. rewrite logout_eq. cbn [snd].
    destruct (credentialRefreshTimerId s); exact Hw.
Qed.

Lemma startCredentialRefreshTimer_frame (s : state) :
  let s' := snd (startCredentialRefreshTimer s) in
  network_calls s' = network_calls s /\ requests s' = requests s.
Proof.
  cbv zeta. rewrite startCredentialRefreshTimer_eq. cbv zeta.
  destruct (negb (truthy (OptGet (stored_value s) "expiration")));
    [| destruct (Date_new (OptGet (stored_value s) "expiration"))];
    unfold cleared; destruct (credentialRefreshTimerId s); split; reflexivity.
Qed.

Lemma hasValidAwsCredentials_ext (s s' : state) :
  localStorage s' = localStorage s -> now s' = now s ->
  fst (hasValidAwsCredentials s') = fst (hasValidAwsCredentials s).
Proof.
  intros Hl Hn. rewrite !hasValidAwsCredentials_eq. cbn [fst].
  rewrite (stored_value_ext s s' Hl), Hn. reflexivity.
Qed.

(** C8.  When the timer armed from a stored expiration runs out, the store
    is emptied before [getValidAwsCredentials] is called, so the call goes
    to the fetcher whatever the store held: with an endpoint configured one
    request goes out and the callback awaits it, with none the
    configuration error is logged; either way the store is left empty.
    When the pre-fetch timer runs out the store is not touched, and a
    valid record in it is a cache hit: no request goes out. *)
Theorem refresh_fire_deletes_first (s : state) (id : positive) (t : timer) :
  find_timer id s = Some t ->
  exists s',
    step CREDENTIAL_CONFIG s (Timeout id) = Some s'
    /\ (timer_job t = Refresh ->
        localStorage s' = None
        /\ (unset (credentialVendingApiUrl CREDENTIAL_CONFIG) = false ->
            network_calls s' = S (network_calls s)
            /\ requests s' = (requests s ++ [ByTimer Refresh])%list)
        /\ (unset (credentialVendingApiUrl CREDENTIAL_CONFIG) = true ->
            network_calls s' = network_calls s
            /\ requests s' = requests s
            /\ console s' = (console s ++ [Error_getValid config_error;
                                           Error_refresh config_error])%list))
    /\ (timer_job t = Prefetch ->
        localStorage s' = localStorage s
        /\ (fst (hasValidAwsCredentials s) = Ok true ->
            network_calls s' = network_calls s /\ requests s' = requests s)).
Proof.
  intros Hf. cbn [step]. rewrite Hf. eexists. split; [reflexivity |].
  rewrite callback_eq. split; intros ->; cbn [before_getValid].
  - rewrite getValidAwsCredentials_eq.
    rewrite hasValidAwsCredentials_eq. cbn [fst].
    change (stored_value (set_localStorage None (remove_timer id s)))
      with (VJson JNull).
    cbn [fields_present OptGet eq_null negb andb].
    destruct (unset (credentialVendingApiUrl CREDENTIAL_CONFIG)).
    + states.
      split; [reflexivity |]. split; [discriminate |].
      intros _. rewrite <- app_assoc. repeat split; reflexivity.
    + cbn [park]. fields.
      split; [reflexivity |]. split; [| discriminate].
      intros _. split; reflexivity.
  - rewrite getValidAwsCredentials_eq.
    assert (fst (hasValidAwsCredentials (remove_timer id s))
            = fst (hasValidAwsCredentials s)) as ->
      by (apply hasValidAwsCredentials_ext; reflexivity).
    destruct (fst (hasValidAwsCredentials s)) as [[|] | e].
    + pose proof (startCredentialRefreshTimer_storage (remove_timer id s)) as Hl.
      pose proof (startCredentialRefreshTimer_frame (remove_timer id s)) as Hfr.
      cbv zeta in Hfr.
      destruct (startCredentialRefreshTimer (remove_timer id s)) as [[[] | e] s2];
        cbn [snd] in Hl, Hfr; states;
        (split; [exact Hl |]); intros _; exact Hfr.
    + destruct (unset (credentialVendingApiUrl CREDENTIAL_CONFIG));
        states; (split; [reflexivity | discriminate]).
    + states. split; [reflexivity | discriminate].
Qed.

(** C10.  The record [getValidAwsCredentials] hands out differs in shape
    with the path: a fetch returns the object it has just built, whose
    expiration is a Date; a cache hit on the very record that fetch stored
    returns the parsed JSON, with the same three other fields and the
    expiration as the ISO string of that Date. *)
Theorem cached_and_fetched_shapes (r : reply) (s s1 : state) (v : value) :
  getValidAwsCredentials_resume r s = (Ok v, s1) ->
  exists t,
    Get v "expiration" = Ok (VDate (Some t))
    /\ forall s2 s2' v',
         localStorage s2 = localStorage s1 ->
         getValidAwsCredentials CREDENTIAL_CONFIG s2 = (Ok (Now v'), s2') ->
         Get v' "expiration" = Ok (VJson (JStr (toISOString t)))
         /\ Get v' "accessKeyId" = Get v "accessKeyId"
         /\ Get v' "secretAccessKey" = Get v "secretAccessKey"
         /\ Get v' "sessionToken" = Get v "sessionToken"
         /\ v' <> v.
Proof.
  rewrite getValidAwsCredentials_resume_eq.
  destruct (fetchCredentialsFromApi_resume r s) as [[v0 | e] s0] eqn:E;
    [| discriminate].
  intros H. injection H as -> ->.
  apply fetchCredentialsFromApi_resume_Ok in E
    as (status & statusText & data & t & _ & _ & _ & _ & -> & ->).
  exists t. split; [reflexivity |].
  intros s2 s2' v' Hl.
  destruct (stored_record data t) as (ms & Hms & Ha & Hb & Hc & He).
  assert (stored_value s2 = VJson (JObj ms)) as Hsv.
  { unfold stored_value. rewrite Hl. cbn [localStorage set_localStorage].
    rewrite Hms. reflexivity. }
  rewrite getValidAwsCredentials_eq, Hsv.
  destruct (fst (hasValidAwsCredentials s2)) as [[|] | e].
  - intros H. injection H as <- _.
    cbn [Get]. rewrite Ha, Hb, Hc, He.
    repeat split; try reflexivity. discriminate.
  - destruct (unset (credentialVendingApiUrl CREDENTIAL_CONFIG)); discriminate.
  - discriminate.
Qed.

End Fire_and_logout.

Section Fetch_and_failure.
Context {DF : DateFormat}.
Variable CREDENTIAL_CONFIG : config.

(** The store after a successful reply, as [startCredentialRefreshTimer]
    and the validity check read it. *)
Lemma after_fetch (r : reply) (s s' : state) (v : value) :
  getValidAwsCredentials_resume r s = (Ok v, s') ->
  exists data t,
    v = credentials_of (VJson data) (Some t)
    /\ in_time_range t
    /\ localStorage s' = JSON_stringify v
    /\ OptGet (stored_value s') "expiration" = VJson (JStr (toISOString t))
    /\ quiet s s'
    /\ network_calls s' = network_calls s
    /\ requests s' = requests s
    /\ now s' = now s.
Proof.
  rewrite getValidAwsCredentials_resume_eq.
  destruct (fetchCredentialsFromApi_resume r s) as [[v0 | e] s0] eqn:E;
    [| discriminate].
  intros H. injection H as -> ->.
  apply fetchCredentialsFromApi_resume_Ok in E
    as (status & statusText & data & t & _ & _ & _ & Hd & -> & ->).
  exists data, t.
  destruct (stored_record data t) as (ms & Hms & _ & _ & _ & He).
  split; [reflexivity |].
  split; [eapply Date_new_range; eassumption |].
  split; [reflexivity |].
  split.
  { unfold stored_value. cbn [localStorage set_localStorage]. rewrite Hms.
    exact He. }
  split; [apply quiet_same; reflexivity |].
  repeat split; reflexivity.
Qed.

(** C1, amended.  When a timer runs out, the scheduler re-arms exactly when
    the refresh it triggers succeeds.  If [getValidAwsCredentials] settles
    with a record (at once on a cache hit, or when the reply arrives), the
    callback calls [startCredentialRefreshTimer], which arms a new timer;
    after a fetch that timer is the refresh timer at
    [max 0 (t - now - 5 min)] for the fetched expiration [t].  If it throws,
    the callback logs the error and ends: it arms nothing. *)
Theorem timer_callback_rearms_on_success (j : job) (s : state) :
  (forall v s1,
     getValidAwsCredentials CREDENTIAL_CONFIG (before_getValid j s)
     = (Ok (Now v), s1) ->
     exists t,
       callback CREDENTIAL_CONFIG j s
       = (Ok (Now tt), snd (startCredentialRefreshTimer s1))
       /\ rearmed s1 (snd (startCredentialRefreshTimer s1)) t)
  /\ (forall e s1,
        getValidAwsCredentials CREDENTIAL_CONFIG (before_getValid j s)
        = (Throw e, s1) ->
        callback CREDENTIAL_CONFIG j s
        = (Ok (Now tt), log (job_error j e) s1)
        /\ timers (log (job_error j e) s1) = timers s
        /\ starts (log (job_error j e) s1) = starts s)
  /\ (forall r v s1,
        getValidAwsCredentials_resume r s = (Ok v, s1) ->
        exists t,
          member v "expiration" = VDate (Some t)
          /\ callback_resume j r s
             = (Ok tt, snd (startCredentialRefreshTimer s1))
          /\ rearmed s1 (snd (startCredentialRefreshTimer s1))
               {| timer_id := next_timer_id s1;
                  timer_delay := Some (Z.max 0 (t - now s1 - 5 * 60 * 1000));
                  timer_job := Refresh |})
  /\ (forall r e s1,
        getValidAwsCredentials_resume r s = (Throw e, s1) ->
        callback_resume j r s = (Ok tt, log (job_error j e) s1)
        /\ timers (log (job_error j e) s1) = timers s
        /\ starts (log (job_error j e) s1) = starts s).
Proof.
  split; [| split; [| split]].
  - intros v s1 E. rewrite callback_eq, E.
    assert (fst (hasValidAwsCredentials s1) = Ok true) as Hv.
    { rewrite getValidAwsCredentials_eq in E.
      destruct (fst (hasValidAwsCredentials (before_getValid j s)))
        as [[|] | e] eqn:Eh.
      - injection E as _ <-. exact Eh.
      - destruct (unset (credentialVendingApiUrl CREDENTIAL_CONFIG)); discriminate.
      - discriminate. }
    destruct (startCredentialRefreshTimer_Ok s1 (valid_converts s1 Hv))
      as (t & Hok & Hre).
    exists t. split; [| exact Hre].
    destruct (startCredentialRefreshTimer s1) as [[[] | e] s2];
      [reflexivity | discriminate].
  - intros e s1 E. rewrite callback_eq, E. split; [reflexivity |].
    pose proof (quiet_getValidAwsCredentials CREDENTIAL_CONFIG
                  (before_getValid j s)) as Hq.
    rewrite E in Hq. cbn [snd] in Hq.
    assert (timers s1 = timers s /\ starts s1 = starts s) as [Ht Hs].
    { rewrite getValidAwsCredentials_eq in E.
      destruct (fst (hasValidAwsCredentials (before_getValid j s))) as [[|] | e'];
        [discriminate | |].
      - destruct (unset (credentialVendingApiUrl CREDENTIAL_CONFIG));
          [| discriminate].
        injection E as _ <-. destruct j; split; reflexivity.
      - injection E as _ <-. destruct j; split; reflexivity. }
    split; assumption.
  - intros r v s1 E.
    destruct (after_fetch r s s1 v E)
      as (data & t & -> & Hr & Hls & He & _).
    exists t. split; [reflexivity |].
    rewrite callback_resume_eq, E.
    assert (truthy (OptGet (stored_value s1) "expiration") = true) as Ht.
    { rewrite He. cbn [truthy]. rewrite toISOString_not_empty by exact Hr.
      reflexivity. }
    assert (Date_new (OptGet (stored_value s1) "expiration") = Ok (Some t)) as Hd.
    { rewrite He. cbn [Date_new]. rewrite Date_parse_toISOString by exact Hr.
      reflexivity. }
    destruct (startCredentialRefreshTimer_refresh s1 (Some t) Ht Hd) as [Hok Hre].
    rewrite refresh_delay_Some in Hre. split; [| exact Hre].
    destruct (startCredentialRefreshTimer s1) as [[[] | e] s2];
      [reflexivity | discriminate].
  - intros r e s1 E. rewrite callback_resume_eq, E. split; [reflexivity |].
    rewrite getValidAwsCredentials_resume_eq in E.
    destruct (fetchCredentialsFromApi_resume r s) as [[v0 | e0] s0] eqn:E0;
      [discriminate |].
    apply fetchCredentialsFromApi_resume_Throw in E0 as ->.
    injection E as _ <-. split; reflexivity.
Qed.

(** C3, amended.  If the stored record passes the validity check,
    [getValidAwsCredentials] returns it as stored and changes nothing, so no
    request goes out.  If it does not and an endpoint is configured,
    exactly one request goes out and the call awaits the reply.  When the
    reply yields a record, that record is stored and returned and no other
    request is made; it passes the validity check exactly when none of its
    fields is null or undefined and its expiration is later than
    [now + 5 min]. *)
Theorem getValidAwsCredentials_hit_or_fetch (s : state) :
  (fst (hasValidAwsCredentials s) = Ok true ->
   getValidAwsCredentials CREDENTIAL_CONFIG s = (Ok (Now (stored_value s)), s))
  /\ (fst (hasValidAwsCredentials s) = Ok false ->
      unset (credentialVendingApiUrl CREDENTIAL_CONFIG) = false ->
      getValidAwsCredentials CREDENTIAL_CONFIG s
      = (Ok Await, set_network_calls (S (network_calls s)) s))
  /\ (forall r v s',
        getValidAwsCredentials_resume r s = (Ok v, s') ->
        network_calls s' = network_calls s
        /\ localStorage s' = JSON_stringify v
        /\ exists t,
             member v "expiration" = VDate (Some t)
             /\ hasValidAwsCredentials s'
                = (Ok (fields_present v && (now s' + 5 * 60 * 1000 <? t)), s')).
Proof.
  split; [| split].
  - intros H. rewrite getValidAwsCredentials_eq, H. reflexivity.
  - intros H Hu. rewrite getValidAwsCredentials_eq, H, Hu. reflexivity.
  - intros r v s' E.
    destruct (after_fetch r s s' v E)
      as (data & t & -> & Hr & Hls & _ & _ & Hn & _).
    split; [exact Hn |]. split; [exact Hls |].
    exists t. split; [reflexivity |].
    apply hasValidAwsCredentials_fetched; assumption.
Qed.

(** C4, amended.  A 2xx reply makes the fetcher fail, storing nothing,
    exactly when its body is not JSON (SyntaxError), is the JSON [null]
    (TypeError), or has an expiration that does not convert to a valid date
    (RangeError, or TypeError).  Every other 2xx body is accepted, whatever
    it holds in accessKeyId, secretAccessKey and sessionToken: the record is
    built from the fields as they are, stored and returned.  A stored
    record that lacks one of the fields does not pass the validity
    check. *)
Theorem fetch_accepts_partial_record
    (status : Z) (statusText : string) (body : text) (s : state) :
  response_ok status = true ->
  let r := fetchCredentialsFromApi_resume (Response status statusText body) s in
  (forall data t,
     body = Encoding data ->
     data <> JNull ->
     Date_new (member (VJson data) "expiration") = Ok (Some t) ->
     let record := credentials_of (VJson data) (Some t) in
     r = (Ok record,
          set_localStorage (JSON_stringify record)
            (log (Info_obtained (toISOString t)) s))
     /\ (fields_present record = false ->
         fst (hasValidAwsCredentials (snd r)) = Ok false))
  /\ ((forall data t,
         body = Encoding data ->
         data <> JNull ->
         Date_new (member (VJson data) "expiration") <> Ok (Some t)) ->
      exists e,
        r = (Throw e, s)
        /\ (e = SyntaxError \/ e = TypeError \/ e = RangeError)).
Proof.
  intros Hok r. subst r.
  rewrite fetchCredentialsFromApi_resume_2xx by exact Hok. split.
  - intros data t -> Hnn Hd record.
    assert (match data with
            | JNull => (Throw TypeError, s)
            | _ =>
                match Date_new (member (VJson data) "expiration") with
                | Ok (Some t) =>
                    let record := credentials_of (VJson data) (Some t) in
                    (Ok record,
                     set_localStorage (JSON_stringify record)
                       (log (Info_obtained (toISOString t)) s))
                | Ok None => (Throw RangeError, s)
                | Throw e => (Throw e, s)
                end
            end
            = (Ok record,
               set_localStorage (JSON_stringify record)
                 (log (Info_obtained (toISOString t)) s))) as ->.
    { destruct data; try contradiction; rewrite Hd; reflexivity. }
    split; [reflexivity |].
    intros Hp. cbn [snd].
    rewrite (hasValidAwsCredentials_fetched data t).
    + cbn [fst]. fold record. rewrite Hp. reflexivity.
    + eapply Date_new_range; eassumption.
    + reflexivity.
  - intros Hno. destruct body as [raw | data]; [eauto |].
    destruct data; eauto;
      match goal with
      | |- context [Date_new ?x] =>
          destruct (Date_new x) as [[t |] | e] eqn:Ed
      end; eauto;
      try (exfalso; eapply Hno; [reflexivity | discriminate | exact Ed]);
      apply Date_new_throws in Ed as ->; eauto.
Qed.

(** C5, amended.  With no endpoint URL configured, a call of
    [getValidAwsCredentials] on a store without a valid record fails at
    once: it throws [config_error], logs it, and sends nothing.  On a store
    with a valid record it returns the record and never looks at the
    configuration.  [config_error] is told apart from every other failure:
    no reply makes the fetcher throw it, and neither does the validity
    check. *)
Theorem config_error_on_miss (s : state) :
  unset (credentialVendingApiUrl CREDENTIAL_CONFIG) = true ->
  (fst (hasValidAwsCredentials s) = Ok false ->
   getValidAwsCredentials CREDENTIAL_CONFIG s
   = (Throw config_error, log (Error_getValid config_error) s)
   /\ network_calls (log (Error_getValid config_error) s) = network_calls s
   /\ requests (log (Error_getValid config_error) s) = requests s)
  /\ (fst (hasValidAwsCredentials s) = Ok true ->
      getValidAwsCredentials CREDENTIAL_CONFIG s
      = (Ok (Now (stored_value s)), s))
  /\ (forall r s1 e s2,
        fetchCredentialsFromApi_resume r s1 = (Throw e, s2) ->
        e <> config_error)
  /\ (forall e, fst (hasValidAwsCredentials s) = Throw e -> e <> config_error).
Proof.
  intros Hu. split; [| split; [| split]].
  - intros H. rewrite getValidAwsCredentials_eq, H, Hu.
    repeat split; reflexivity.
  - intros H. rewrite getValidAwsCredentials_eq, H. reflexivity.
  - intros r s1 e s2. destruct r as [| status statusText body].
    + intros H. injection H as <- _. discriminate.
    + destruct (response_ok status) eqn:Hok.
      * rewrite fetchCredentialsFromApi_resume_2xx by exact Hok.
        destruct body as [raw | data];
          [intros H; injection H as <- _; discriminate |].
        destruct data;
          try (intros H; injection H as <- _; discriminate);
          match goal with
          | |- context [Date_new ?x] =>
              destruct (Date_new x) as [[t |] | e'] eqn:Ed
          end; intros H; try discriminate; injection H as <- _;
          try discriminate;
          apply Date_new_throws in Ed as ->; discriminate.
      * rewrite fetchCredentialsFromApi_resume_not_2xx by exact Hok.
        intros H. injection H as <- _. discriminate.
  - intros e. rewrite hasValidAwsCredentials_eq. cbn [fst].
    destruct (fields_present (stored_value s)); [| discriminate].
    destruct (Date_new (OptGet (stored_value s) "expiration")) as [n | e'] eqn:Ed;
      [discriminate |].
    cbn [bind_result]. intros H. injection H as <-.
    apply Date_new_throws in Ed as ->. discriminate.
Qed.

End Fetch_and_failure.

(** * Further properties of the module *)

Section Store_and_configuration.
Context {DF : DateFormat}.

(** X1.  A record as [fetchCredentialsFromApi] builds it, written with
    [setAwsCredentials] and read back with [getAwsCredentialsFromStorage],
    comes back with the same accessKeyId, secretAccessKey and sessionToken
    (a field that was undefined is undefined again) and with an expiration
    that converts to the same time; the write changes the store and
    nothing else. *)
Theorem stored_record_reads_back (data : json) (t : Z) (s : state) :
  in_time_range t ->
  let record := credentials_of (VJson data) (Some t) in
  exists item read,
    setAwsCredentials record s = (Ok tt, set_localStorage (Some item) s)
    /\ getAwsCredentialsFromStorage (set_localStorage (Some item) s)
       = (Ok read, set_localStorage (Some item) s)
    /\ member read "accessKeyId" = member record "accessKeyId"
    /\ member read "secretAccessKey" = member record "secretAccessKey"
    /\ member read "sessionToken" = member record "sessionToken"
    /\ Date_new (member read "expiration") = Date_new (member record "expiration")
    /\ Date_new (member read "expiration") = Ok (Some t).
Proof.
  intros Ht record.
  destruct (stored_record data t) as (ms & Hms & Ha & Hb & Hc & He).
  exists (Encoding (JObj ms)), (VJson (JObj ms)).
  split.
  { unfold setAwsCredentials. subst record. rewrite Hms. reflexivity. }
  split.
  { rewrite getAwsCredentialsFromStorage_eq. reflexivity. }
  rewrite Ha, Hb, Hc, He. subst record.
  assert (Date_new (VJson (JStr (toISOString t))) = Ok (Some t)) as Hd.
  { cbn [Date_new]. rewrite Date_parse_toISOString by exact Ht. reflexivity. }
  repeat split; try reflexivity; try exact Hd.
  rewrite Hd. unfold credentials_of.
  cbn [member lookup String.eqb Ascii.eqb Bool.eqb Date_new].
  rewrite ISO8601_facts.TimeClip_in_range by exact Ht. reflexivity.
Qed.

(** X2.  The endpoint counts as not configured exactly when the WebappConfig
    parameter is missing, is the placeholder "not-defined", or is the empty
    string; [fetchCredentialsFromApi] then throws the configuration error
    and sends nothing, and for every other parameter it sends one request
    and awaits the reply. *)
Theorem placeholder_is_not_configured (param : option string) (s : state) :
  let cfg := make_CREDENTIAL_CONFIG param in
  (unset (credentialVendingApiUrl cfg) = true <->
   param = None \/ param = Some "not-defined" \/ param = Some "")
  /\ (unset (credentialVendingApiUrl cfg) = true ->
      fetchCredentialsFromApi cfg s = (Throw config_error, s))
  /\ (unset (credentialVendingApiUrl cfg) = false ->
      fetchCredentialsFromApi cfg s
      = (Ok Await, set_network_calls (S (network_calls s)) s)).
Proof.
  cbv zeta. split; [| split].
  - unfold make_CREDENTIAL_CONFIG, getParamValue, unset, SSM_NOT_DEFINED.
    cbn [credentialVendingApiUrl]. destruct param as [p |].
    + destruct (String.eqb_spec p "not-defined") as [-> | Hn].
      * split; auto.
      * destruct (String.eqb_spec p "") as [-> | He].
        -- split; auto.
        -- split; [discriminate |].
           intros [H | [H | H]]; try discriminate; injection H as ->;
             contradiction.
    + split; auto.
  - intros H. rewrite fetchCredentialsFromApi_eq, H. reflexivity.
  - intros H. rewrite fetchCredentialsFromApi_eq, H. reflexivity.
Qed.

(** X3.  The validity check only gets stricter as the clock advances: with
    the store as it is, a record that is valid later is valid now, a record
    that is not valid now is not valid later, and a record valid now stays
    valid for as long as the clock plus five minutes is before its
    expiration. *)
Theorem validity_only_expires (s : state) (ms : Z) :
  0 <= ms ->
  let later := set_now (now s + ms) s in
  (fst (hasValidAwsCredentials later) = Ok true ->
   fst (hasValidAwsCredentials s) = Ok true)
  /\ (fst (hasValidAwsCredentials s) = Ok false ->
      fst (hasValidAwsCredentials later) = Ok false)
  /\ (forall t,
        fst (hasValidAwsCredentials s) = Ok true ->
        Date_new (OptGet (stored_value s) "expiration") = Ok (Some t) ->
        now s + ms + 5 * 60 * 1000 < t ->
        fst (hasValidAwsCredentials later) = Ok true).
Proof.
  intros Hms later. subst later.
  rewrite !hasValidAwsCredentials_eq. cbn [fst].
  change (stored_value (set_now (now s + ms) s)) with (stored_value s).
  cbn [now set_now].
  destruct (fields_present (stored_value s)).
  - destruct (Date_new (OptGet (stored_value s) "expiration")) as [[t |] | e];
      cbn [bind_result num_lt].
    + split; [| split].
      * intros H. injection H as H. apply Z.ltb_lt in H.
        f_equal. apply Z.ltb_lt. lia.
      * intros H. injection H as H. apply Z.ltb_ge in H.
        f_equal. apply Z.ltb_ge. lia.
      * intros t' _ E H. injection E as <-. f_equal. apply Z.ltb_lt. lia.
    + split; [discriminate | split; [auto | discriminate]].
    + split; [discriminate | split; discriminate].
  - split; [discriminate | split; [auto | discriminate]].
Qed.

End Store_and_configuration.

Section Failures_and_frames.
Context {DF : DateFormat}.
Variable CREDENTIAL_CONFIG : config.

Lemma getValidAwsCredentials_Throw (s s' : state) (e : error) :
  getValidAwsCredentials CREDENTIAL_CONFIG s = (Throw e, s') ->
  s' = log (Error_getValid e) s
  /\ (fst (hasValidAwsCredentials s) = Throw e
      \/ fst (fetchCredentialsFromApi CREDENTIAL_CONFIG s) = Throw e).
Proof.
  rewrite getValidAwsCredentials_eq, fetchCredentialsFromApi_eq.
  destruct (fst (hasValidAwsCredentials s)) as [[|] | e0]; [discriminate | |].
  - destruct (unset (credentialVendingApiUrl CREDENTIAL_CONFIG));
      [| discriminate].
    intros H. injection H as <- <-. split; [reflexivity | right; reflexivity].
  - intros H. injection H as <- <-. split; [reflexivity | left; reflexivity].
Qed.

Lemma getValidAwsCredentials_resume_Throw (r : reply) (s s' : state) (e : error) :
  getValidAwsCredentials_resume r s = (Throw e, s') ->
  s' = log (Error_getValid e) s
  /\ fetchCredentialsFromApi_resume r s = (Throw e, s).
Proof.
  rewrite getValidAwsCredentials_resume_eq.
  destruct (fetchCredentialsFromApi_resume r s) as [[v | e0] s0] eqn:E;
    [discriminate |].
  apply fetchCredentialsFromApi_resume_Throw in E as ->.
  intros H. injection H as <- <-. split; reflexivity.
Qed.

(** X4.  [getValidAwsCredentials] logs and rethrows: when it throws, before
    the await or on the reply, the error is the one its callee threw, the
    console has got exactly one line, with that error, and nothing else has
    changed; the stored record in particular is as it was.  A cache hit
    changes nothing at all. *)
Theorem getValidAwsCredentials_logs_and_rethrows (s : state) :
  (forall e s',
     getValidAwsCredentials CREDENTIAL_CONFIG s = (Throw e, s') ->
     s' = log (Error_getValid e) s
     /\ (fst (hasValidAwsCredentials s) = Throw e
         \/ fst (fetchCredentialsFromApi CREDENTIAL_CONFIG s) = Throw e))
  /\ (forall r e s',
        getValidAwsCredentials_resume r s = (Throw e, s') ->
        s' = log (Error_getValid e) s
        /\ fetchCredentialsFromApi_resume r s = (Throw e, s))
  /\ (forall v s',
        getValidAwsCredentials CREDENTIAL_CONFIG s = (Ok (Now v), s') ->
        s' = s).
Proof.
  split; [| split].
  - intros e s'. apply getValidAwsCredentials_Throw.
  - intros r e s'. apply getValidAwsCredentials_resume_Throw.
  - intros v s'. rewrite getValidAwsCredentials_eq.
    destruct (fst (hasValidAwsCredentials s)) as [[|] | e0]; [| | discriminate].
    + intros H. injection H as _ <-. reflexivity.
    + destruct (unset (credentialVendingApiUrl CREDENTIAL_CONFIG)); discriminate.
Qed.

(** X5.  No error leaves a timer callback: whatever the store, the
    configuration and the reply, the callback returns, and so does its
    continuation.  An error of [getValidAwsCredentials] is on the console
    twice, once from [getValidAwsCredentials] and once from the callback. *)
Theorem timer_callbacks_never_throw (j : job) (s : state) (r : reply) :
  (exists x s', callback CREDENTIAL_CONFIG j s = (Ok x, s'))
  /\ (exists s', callback_resume j r s = (Ok tt, s'))
  /\ (forall e s1,
        getValidAwsCredentials CREDENTIAL_CONFIG (before_getValid j s)
        = (Throw e, s1) ->
        console (snd (callback CREDENTIAL_CONFIG j s))
        = (console s ++ [Error_getValid e; job_error j e])%list)
  /\ (forall e s1,
        getValidAwsCredentials_resume r s = (Throw e, s1) ->
        console (snd (callback_resume j r s))
        = (console s ++ [Error_getValid e; job_error j e])%list).
Proof.
  split; [| split; [| split]].
  - rewrite callback_eq.
    destruct (getValidAwsCredentials CREDENTIAL_CONFIG (before_getValid j s))
      as [[[v |] | e] s1]; eauto.
    destruct (startCredentialRefreshTimer s1) as [[[] | e] s2]; eauto.
  - rewrite callback_resume_eq.
    destruct (getValidAwsCredentials_resume r s) as [[v | e] s1]; eauto.
    destruct (startCredentialRefreshTimer s1) as [[[] | e] s2]; eauto.
  - intros e s1 E. rewrite callback_eq, E. cbn [snd].
    destruct (getValidAwsCredentials_Throw _ _ _ E) as [-> _].
    unfold log. cbn [console set_console]. rewrite <- app_assoc.
    destruct j; reflexivity.
  - intros e s1 E. rewrite callback_resume_eq, E. cbn [snd].
    destruct (getValidAwsCredentials_resume_Throw _ _ _ _ E) as [-> _].
    unfold log. cbn [console set_console]. rewrite <- app_assoc. reflexivity.
Qed.

(** X6.  [startCredentialRefreshTimer] works on the schedule only: it never
    writes the store, sends nothing, leaves the requests on the network and
    the clock alone and does not reload the page, whether it arms or
    throws. *)
Theorem startCredentialRefreshTimer_touches_schedule_only (s : state) :
  let s' := snd (startCredentialRefreshTimer s) in
  localStorage s' = localStorage s
  /\ network_calls s' = network_calls s
  /\ requests s' = requests s
  /\ now s' = now s
  /\ reloads s' = reloads s
  /\ starts s' = S (starts s).
Proof.
  cbv zeta. rewrite startCredentialRefreshTimer_eq. cbv zeta.
  destruct (negb (truthy (OptGet (stored_value s) "expiration")));
    [| destruct (Date_new (OptGet (stored_value s) "expiration"))];
    unfold cleared; destruct (credentialRefreshTimerId s);
    repeat split; reflexivity.
Qed.

Lemma Date_new_throws_truthy (v : value) (e : error) :
  Date_new v = Throw e -> truthy v = true.
Proof.
  destruct v as [| j | [t |] | members]; cbn [Date_new]; try discriminate.
  - destruct j as [| [|] | n | s | items | members]; try discriminate;
      reflexivity.
  - reflexivity.
Qed.

(** X7.  [startCredentialRefreshTimer] throws exactly when the stored
    expiration does not convert to a Date at all (an array or object whose
    string form cannot be taken).  The error is a TypeError, and the call
    has by then cleared the timer it knew of and armed none: where one
    timer was pending, none is left. *)
Theorem startCredentialRefreshTimer_throws (s : state) (e : error) :
  (fst (startCredentialRefreshTimer s) = Throw e <->
   Date_new (OptGet (stored_value s) "expiration") = Throw e)
  /\ (fst (startCredentialRefreshTimer s) = Throw e ->
      e = TypeError
      /\ snd (startCredentialRefreshTimer s) = cleared s
      /\ (single_timer s -> timers (snd (startCredentialRefreshTimer s)) = [])).
Proof.
  assert (fst (startCredentialRefreshTimer s) = Throw e ->
          Date_new (OptGet (stored_value s) "expiration") = Throw e
          /\ snd (startCredentialRefreshTimer s) = cleared s) as Hthrow.
  { rewrite startCredentialRefreshTimer_eq. cbv zeta.
    destruct (negb (truthy (OptGet (stored_value s) "expiration")));
      [discriminate |].
    destruct (Date_new (OptGet (stored_value s) "expiration")) as [n | e'];
      [discriminate |].
    cbn [fst snd]. intros H. injection H as <-. split; reflexivity. }
  split; [split |].
  - intros H. apply Hthrow, H.
  - intros H. rewrite startCredentialRefreshTimer_eq. cbv zeta.
    rewrite (Date_new_throws_truthy _ _ H), H. reflexivity.
  - intros H. destruct (Hthrow H) as [Hd Hs].
    split; [eapply Date_new_throws; exact Hd |].
    split; [exact Hs |].
    intros Hone. rewrite Hs. apply cleared_timers, Hone.
Qed.

(** X8.  The clamp of the refresh delay does not catch NaN: on a stored
    expiration that is truthy and converts to the Invalid Date (a string
    that is no date), [startCredentialRefreshTimer] arms the refresh timer
    with a NaN delay and logs a NaN number of seconds. *)
Theorem unparsable_expiration_arms_NaN (s : state) :
  truthy (OptGet (stored_value s) "expiration") = true ->
  Date_new (OptGet (stored_value s) "expiration") = Ok NaN ->
  fst (startCredentialRefreshTimer s) = Ok tt
  /\ rearmed s (snd (startCredentialRefreshTimer s))
       {| timer_id := next_timer_id s; timer_delay := NaN;
          timer_job := Refresh |}
  /\ console (snd (startCredentialRefreshTimer s))
     = (console s ++ [Info_scheduled NaN])%list.
Proof.
  intros Ht Hd.
  destruct (startCredentialRefreshTimer_refresh s NaN Ht Hd) as [Hok Hre].
  split; [exact Hok |]. split; [exact Hre |].
  rewrite startCredentialRefreshTimer_eq. cbv zeta. rewrite Ht, Hd.
  unfold cleared. destruct (credentialRefreshTimerId s); reflexivity.
Qed.

(** X9.  After [logout] the next call of [getValidAwsCredentials] is never
    served from the store: with an endpoint configured it sends a request
    and awaits the reply, with none it throws the configuration error. *)
Theorem logout_forces_fetch (s : state) :
  let s1 := snd (logout s) in
  getValidAwsCredentials CREDENTIAL_CONFIG s1
  = if unset (credentialVendingApiUrl CREDENTIAL_CONFIG)
    then (Throw config_error, log (Error_getValid config_error) s1)
    else (Ok Await, set_network_calls (S (network_calls s1)) s1).
Proof.
  cbv zeta. rewrite getValidAwsCredentials_eq, hasValidAwsCredentials_eq.
  assert (stored_value (snd (logout s)) = VJson JNull) as ->.
  { rewrite logout_eq. unfold stored_value. cbn [snd].
    destruct (credentialRefreshTimerId s); reflexivity. }
  reflexivity.
Qed.

End Failures_and_frames.

Section Runs.
Context {DF : DateFormat}.
Variable CREDENTIAL_CONFIG : config.

Lemma keeps_delays_refl (s : state) : keeps_delays s s.
Proof. intros t H. left. exact H. Qed.

Lemma keeps_delays_trans (s1 s2 s3 : state) :
  keeps_delays s1 s2 -> keeps_delays s2 s3 -> keeps_delays s1 s3.
Proof.
  intros H12 H23 t H. destruct (H23 t H) as [H2 | Hd]; [| right; exact Hd].
  apply H12, H2.
Qed.

Lemma quiet_keeps_delays (s s' : state) : quiet s s' -> keeps_delays s s'.
Proof.
  intros ([p Hp] & _) t H. left. rewrite Hp in H.
  apply filter_In in H. apply H.
Qed.

Lemma refresh_delay_ok (n : number) (now : Z) (id : positive) :
  delay_ok {| timer_id := id; timer_delay := refresh_delay n now;
              timer_job := Refresh |}.
Proof.
  unfold delay_ok. cbn [timer_job timer_delay].
  destruct n as [t |].
  - right. rewrite refresh_delay_Some. eexists. split; [reflexivity | lia].
  - left. reflexivity.
Qed.

Lemma In_cleared (s : state) (t : timer) :
  In t (timers (cleared s)) -> In t (timers s).
Proof.
  unfold cleared. destruct (credentialRefreshTimerId s) as [i |].
  - cbn [timers set_timers]. intros H. apply filter_In in H. apply H.
  - intros H. exact H.
Qed.

Lemma startCredentialRefreshTimer_keeps_delays (s : state) :
  keeps_delays s (snd (startCredentialRefreshTimer s)).
Proof.
  intros t. rewrite startCredentialRefreshTimer_eq. cbv zeta.
  destruct (negb (truthy (OptGet (stored_value s) "expiration")));
    [| destruct (Date_new (OptGet (stored_value s) "expiration")) as [n | e]];
    unfold arm, setTimeout, log; fields.
  - intros H. apply in_app_or in H as [H | [<- | []]].
    + left. apply In_cleared, H.
    + right. reflexivity.
  - intros H. apply in_app_or in H as [H | [<- | []]].
    + left. apply In_cleared, H.
    + right. apply refresh_delay_ok.
  - intros H. left. apply In_cleared, H.
Qed.

Lemma callback_keeps_delays (j : job) (s : state) :
  keeps_delays s (snd (callback CREDENTIAL_CONFIG j s)).
Proof.
  rewrite callback_eq.
  assert (quiet s (before_getValid j s)) as H0
    by (destruct j; [apply quiet_refl | apply quiet_set_localStorage]).
  pose proof (quiet_getValidAwsCredentials CREDENTIAL_CONFIG
                (before_getValid j s)) as H1.
  destruct (getValidAwsCredentials CREDENTIAL_CONFIG (before_getValid j s))
    as [[[v |] | e] s1]; cbn [snd] in *.
  - pose proof (startCredentialRefreshTimer_keeps_delays s1) as H2.
    apply keeps_delays_trans with s1;
      [apply quiet_keeps_delays; eapply quiet_trans; eassumption |].
    destruct (startCredentialRefreshTimer s1) as [[[] | e] s2]; cbn [snd] in *.
    + exact H2.
    + eapply keeps_delays_trans;
        [exact H2 | apply quiet_keeps_delays, quiet_log].
  - apply quiet_keeps_delays. eapply quiet_trans; eassumption.
  - apply quiet_keeps_delays.
    eapply quiet_trans; [eapply quiet_trans; eassumption | apply quiet_log].
Qed.

Lemma callback_resume_keeps_delays (j : job) (r : reply) (s : state) :
  keeps_delays s (snd (callback_resume j r s)).
Proof.
  rewrite callback_resume_eq.
  pose proof (quiet_getValidAwsCredentials_resume r s) as H1.
  destruct (getValidAwsCredentials_resume r s) as [[v | e] s1]; cbn [snd] in *.
  - pose proof (startCredentialRefreshTimer_keeps_delays s1) as H2.
    apply keeps_delays_trans with s1; [apply quiet_keeps_delays, H1 |].
    destruct (startCredentialRefreshTimer s1) as [[[] | e] s2]; cbn [snd] in *.
    + exact H2.
    + eapply keeps_delays_trans;
        [exact H2 | apply quiet_keeps_delays, quiet_log].
  - apply quiet_keeps_delays. eapply quiet_trans; [exact H1 | apply quiet_log].
Qed.

Lemma step_keeps_delays (s s' : state) (e : event) :
  step CREDENTIAL_CONFIG s e = Some s' -> keeps_delays s s'.
Proof.
  destruct e as [| | | | id | i r | ms]; cbn [step].
  - intros H. injection H as <-. apply startCredentialRefreshTimer_keeps_delays.
  - intros H. apply quiet_keeps_delays.
    pose proof (step_schedule CREDENTIAL_CONFIG s s' Call_getValidAwsCredentials H)
      as [Hq | [Hr _]]; [exact Hq |].
    exfalso. injection H as <-.
    pose proof (quiet_getValidAwsCredentials CREDENTIAL_CONFIG s) as Hq.
    destruct (getValidAwsCredentials CREDENTIAL_CONFIG s) as [r s1].
    cbn [snd] in Hq.
    pose proof (quiet_park ByCaller r s1) as Hp.
    destruct Hq as (_ & _ & _ & E1). destruct Hp as (_ & _ & _ & E2). lia.
  - intros H. injection H as <-. rewrite hasValidAwsCredentials_state.
    apply keeps_delays_refl.
  - intros H. injection H as <-. apply quiet_keeps_delays, quiet_logout.
  - destruct (find_timer id s) as [t |]; [| discriminate].
    intros H. injection H as <-.
    pose proof (callback_keeps_delays (timer_job t) (remove_timer id s)) as Hc.
    destruct (callback CREDENTIAL_CONFIG (timer_job t) (remove_timer id s))
      as [r s1]. cbn [snd] in Hc.
    eapply keeps_delays_trans;
      [apply quiet_keeps_delays, quiet_remove_timer |].
    eapply keeps_delays_trans; [exact Hc | apply quiet_keeps_delays, quiet_park].
  - destruct (nth_error (requests s) i) as [[| j] |]; [| | discriminate].
    + intros H. injection H as <-. apply quiet_keeps_delays.
      eapply quiet_trans; [apply quiet_remove_request |].
      apply quiet_getValidAwsCredentials_resume.
    + intros H. injection H as <-.
      eapply keeps_delays_trans;
        [apply quiet_keeps_delays, quiet_remove_request |].
      apply callback_resume_keeps_delays.
  - destruct (0 <=? ms); [| discriminate].
    intros H. injection H as <-. apply quiet_keeps_delays, quiet_same; reflexivity.
Qed.

(** X10.  In every reachable state each pending timer carries a delay the
    module computed: exactly 2000 ms on the pre-fetch timer, and on the
    refresh timer a number of milliseconds that is not negative, or NaN;
    no negative delay ever reaches [setTimeout]. *)
Theorem pending_delays_are_not_negative (s : state) :
  reachable CREDENTIAL_CONFIG s ->
  forall t, In t (timers s) -> delay_ok t.
Proof.
  induction 1 as [s (_ & Ht & _) | s e s' _ IH Hstep].
  - rewrite Ht. intros t [].
  - intros t H. destruct (step_keeps_delays _ _ _ Hstep t H) as [H0 | Hd].
    + apply IH, H0.
    + exact Hd.
Qed.

(** X11.  Misses are not coalesced: when the store holds no valid record and
    an endpoint is configured, two calls of [getValidAwsCredentials] in a
    row send two requests, and both callers await a reply; the store is as
    it was.  Of two replies that yield records, the later one is what the
    store ends up holding. *)
Theorem concurrent_misses_send_two_requests (s : state) :
  fst (hasValidAwsCredentials s) = Ok false ->
  unset (credentialVendingApiUrl CREDENTIAL_CONFIG) = false ->
  (exists s2,
     run CREDENTIAL_CONFIG s
       [Call_getValidAwsCredentials; Call_getValidAwsCredentials] = Some s2
     /\ network_calls s2 = S (S (network_calls s))
     /\ requests s2 = (requests s ++ [ByCaller; ByCaller])%list
     /\ localStorage s2 = localStorage s)
  /\ (forall r1 r2 v1 v2 sa sb sc,
        getValidAwsCredentials_resume r1 sa = (Ok v1, sb) ->
        getValidAwsCredentials_resume r2 sb = (Ok v2, sc) ->
        localStorage sc = JSON_stringify v2).
Proof.
  intros Hv Hu. split.
  - set (s1 := set_requests (requests s ++ [ByCaller])
                  (set_network_calls (S (network_calls s)) s)).
    assert (step CREDENTIAL_CONFIG s Call_getValidAwsCredentials = Some s1) as E1.
    { cbn [step]. rewrite (getValidAwsCredentials_eq CREDENTIAL_CONFIG s), Hv, Hu.
      reflexivity. }
    assert (fst (hasValidAwsCredentials s1) = Ok false) as Hv1
      by (rewrite <- Hv; apply hasValidAwsCredentials_ext; reflexivity).
    assert (step CREDENTIAL_CONFIG s1 Call_getValidAwsCredentials
            = Some (set_requests (requests s1 ++ [ByCaller])
                      (set_network_calls (S (network_calls s1)) s1))) as E2.
    { cbn [step]. rewrite (getValidAwsCredentials_eq CREDENTIAL_CONFIG s1), Hv1, Hu.
      reflexivity. }
    eexists. split; [cbn [run]; rewrite E1, E2; reflexivity |].
    subst s1. states. rewrite <- app_assoc. repeat split; reflexivity.
  - intros r1 r2 v1 v2 sa sb sc _ E2.
    destruct (after_fetch r2 sb sc v2 E2) as (data & t & _ & _ & H & _).
    exact H.
Qed.

Lemma module_written_ext (s s' : state) :
  localStorage s' = localStorage s -> module_written s -> module_written s'.
Proof. unfold module_written. intros ->. auto. Qed.

Lemma localStorage_getValidAwsCredentials (s : state) :
  localStorage (snd (getValidAwsCredentials CREDENTIAL_CONFIG s)) = localStorage s.
Proof.
  rewrite getValidAwsCredentials_eq.
  destruct (fst (hasValidAwsCredentials s)) as [[|] | e]; try reflexivity.
  destruct (unset (credentialVendingApiUrl CREDENTIAL_CONFIG)); reflexivity.
Qed.

Lemma getValidAwsCredentials_resume_keeps_store (r : reply) (s : state) :
  keeps_store s (snd (getValidAwsCredentials_resume r s)).
Proof.
  destruct (getValidAwsCredentials_resume r s) as [[v | e] s'] eqn:E; cbn [snd].
  - right. right.
    destruct (after_fetch r s s' v E) as (data & t & -> & Hr & Hl & _).
    exists data, t. split; assumption.
  - left. apply getValidAwsCredentials_resume_Throw in E as [-> _]. reflexivity.
Qed.

Lemma localStorage_park {A} (who : awaiting) (r : result (suspension A)) (s : state) :
  localStorage (park who (r, s)) = localStorage s.
Proof. destruct r as [[a |] | e]; reflexivity. Qed.

Lemma keeps_store_then_same (s s1 s2 : state) :
  keeps_store s s1 -> localStorage s2 = localStorage s1 -> keeps_store s s2.
Proof.
  intros [H | H] E; [left; congruence | right].
  eapply module_written_ext; [exact E | exact H].
Qed.

Lemma callback_keeps_store (j : job) (s : state) :
  keeps_store s (snd (callback CREDENTIAL_CONFIG j s)).
Proof.
  rewrite callback_eq.
  assert (keeps_store s (before_getValid j s)) as H0
    by (destruct j; [left; reflexivity | right; left; reflexivity]).
  pose proof (localStorage_getValidAwsCredentials (before_getValid j s)) as H1.
  destruct (getValidAwsCredentials CREDENTIAL_CONFIG (before_getValid j s))
    as [[[v |] | e] s1]; cbn [snd] in *.
  - pose proof (startCredentialRefreshTimer_storage s1) as H2.
    destruct (startCredentialRefreshTimer s1) as [[[] | e] s2]; cbn [snd] in *;
      eapply keeps_store_then_same; try exact H0;
      unfold log; cbn [localStorage set_console]; congruence.
  - eapply keeps_store_then_same; [exact H0 | exact H1].
  - eapply keeps_store_then_same; [exact H0 | exact H1].
Qed.

Lemma callback_resume_keeps_store (j : job) (r : reply) (s : state) :
  keeps_store s (snd (callback_resume j r s)).
Proof.
  rewrite callback_resume_eq.
  pose proof (getValidAwsCredentials_resume_keeps_store r s) as H1.
  destruct (getValidAwsCredentials_resume r s) as [[v | e] s1]; cbn [snd] in *.
  - pose proof (startCredentialRefreshTimer_storage s1) as H2.
    destruct (startCredentialRefreshTimer s1) as [[[] | e] s2]; cbn [snd] in *;
      eapply keeps_store_then_same; try exact H1;
      unfold log; cbn [localStorage set_console]; congruence.
  - eapply keeps_store_then_same; [exact H1 | reflexivity].
Qed.

(** The store changes in three ways only: a reply stores a record, the
    refresh callback and [logout] empty it. *)
Lemma step_keeps_store (s s' : state) (e : event) :
  step CREDENTIAL_CONFIG s e = Some s' -> keeps_store s s'.
Proof.
  destruct e as [| | | | id | i r | ms]; cbn [step].
  - intros H. injection H as <-. left. apply startCredentialRefreshTimer_storage.
  - intros H. injection H as <-. left.
    pose proof (localStorage_getValidAwsCredentials s) as Hl.
    destruct (getValidAwsCredentials CREDENTIAL_CONFIG s) as [r s1].
    rewrite localStorage_park. exact Hl.
  - intros H. injection H as <-. left.
    rewrite hasValidAwsCredentials_state. reflexivity.
  - intros H. injection H as <-. right. left. rewrite logout_eq. cbn [snd].
    destruct (credentialRefreshTimerId s); reflexivity.
  - destruct (find_timer id s) as [t |]; [| discriminate].
    intros H. injection H as <-.
    pose proof (callback_keeps_store (timer_job t) (remove_timer id s)) as Hc.
    destruct (callback CREDENTIAL_CONFIG (timer_job t) (remove_timer id s))
      as [r s1]. cbn [snd] in Hc.
    eapply keeps_store_then_same; [| apply localStorage_park].
    destruct Hc as [Hc | Hc]; [left | right]; assumption.
  - destruct (nth_error (requests s) i) as [[| j] |]; [| | discriminate].
    + intros H. injection H as <-.
      destruct (getValidAwsCredentials_resume_keeps_store r (remove_request i s))
        as [Hc | Hc]; [left | right]; assumption.
    + intros H. injection H as <-.
      destruct (callback_resume_keeps_store j r (remove_request i s))
        as [Hc | Hc]; [left | right]; assumption.
  - destruct (0 <=? ms); [| discriminate].
    intros H. injection H as <-. left. reflexivity.
Qed.

(** X12.  A store that is empty or holds a record the module has written
    stays so along every run: the module never writes anything but such a
    record.  On such a store the validity check returns (it never throws)
    and [startCredentialRefreshTimer] arms a timer (it never throws). *)
Theorem module_written_store_is_kept (s : state) :
  module_written s ->
  (forall es s', run CREDENTIAL_CONFIG s es = Some s' -> module_written s')
  /\ (exists b, hasValidAwsCredentials s = (Ok b, s))
  /\ (exists t,
        fst (startCredentialRefreshTimer s) = Ok tt
        /\ rearmed s (snd (startCredentialRefreshTimer s)) t).
Proof.
  intros Hw. split; [| split].
  - intros es. revert s Hw.
    induction es as [| e es IH]; intros s Hw s'; cbn [run].
    + intros H. injection H as <-. exact Hw.
    + destruct (step CREDENTIAL_CONFIG s e) as [s1 |] eqn:E; [| discriminate].
      apply IH. destruct (step_keeps_store _ _ _ E) as [Hl | Hm].
      * eapply module_written_ext; [exact Hl | exact Hw].
      * exact Hm.
  - destruct Hw as [Hn | (data & t & Hr & Hl)].
    + exists false. rewrite hasValidAwsCredentials_eq.
      unfold stored_value. rewrite Hn. reflexivity.
    + eexists. apply hasValidAwsCredentials_fetched; eassumption.
  - destruct Hw as [Hn | (data & t & Hr & Hl)].
    + eexists. apply startCredentialRefreshTimer_fallback.
      unfold stored_value. rewrite Hn. reflexivity.
    + destruct (stored_record data t) as (ms & Hms & _ & _ & _ & He).
      assert (OptGet (stored_value s) "expiration"
              = VJson (JStr (toISOString t))) as Hexp.
      { unfold stored_value. rewrite Hl, Hms. exact He. }
      eexists. apply startCredentialRefreshTimer_refresh with (n := Some t).
      * rewrite Hexp. cbn [truthy].
        rewrite toISOString_not_empty by exact Hr. reflexivity.
      * rewrite Hexp. cbn [Date_new].
        rewrite Date_parse_toISOString by exact Hr. reflexivity.
Qed.

End Runs.

(** ** The statements on sample inputs *)

#[local] Existing Instance ISO8601_format.

(** C1 does not hold as stated.  With no endpoint configured the pre-fetch timer
    runs out, [getValidAwsCredentials] throws, the error is logged and
    nothing is armed: no timer is pending and no request is out.  The same
    happens with an endpoint when the transport fails. *)
Lemma failed_refresh_is_not_rearmed :
  (exists s',
     run unconfigured (page_load None eight_oclock)
       [Call_startCredentialRefreshTimer; Timeout 1] = Some s'
     /\ timers s' = [] /\ requests s' = []
     /\ console s' = [Error_getValid config_error; Error_prefetch config_error])
  /\ (exists s',
        run configured (page_load None eight_oclock)
          [Call_startCredentialRefreshTimer; Timeout 1; Reply 0 Failed] = Some s'
        /\ timers s' = [] /\ requests s' = []
        /\ console s' = [Error_getValid TypeError; Error_prefetch TypeError]).
Proof.
  split; eexists; (split; [vm_compute; reflexivity |]);
    repeat split; reflexivity.
Qed.

(** C1, amended, on a page whose pre-fetch gets a record that expires in an
    hour: the refresh is armed 55 minutes ahead. *)
Lemma timer_callback_rearms_on_success_witness :
  let r := Response 200 "OK" (Encoding (issued "2024-11-02T09:00:00.000Z")) in
  let s := page_load None eight_oclock in
  let v := credentials_of (VJson (issued "2024-11-02T09:00:00.000Z"))
             (Some 1730538000000) in
  let s1 := log (Info_obtained "2024-11-02T09:00:00.000Z")
              (page_load (Some (Encoding (issued "2024-11-02T09:00:00.000Z")))
                 eight_oclock) in
  getValidAwsCredentials_resume r s = (Ok v, s1)
  /\ exists t,
       member v "expiration" = VDate (Some t)
       /\ callback_resume Prefetch r s
          = (Ok tt, snd (startCredentialRefreshTimer s1))
       /\ rearmed s1 (snd (startCredentialRefreshTimer s1))
            {| timer_id := next_timer_id s1;
               timer_delay := Some (Z.max 0 (t - now s1 - 5 * 60 * 1000));
               timer_job := Refresh |}.
Proof.
  cbv zeta.
  assert (getValidAwsCredentials_resume
            (Response 200 "OK" (Encoding (issued "2024-11-02T09:00:00.000Z")))
            (page_load None eight_oclock)
          = (Ok (credentials_of (VJson (issued "2024-11-02T09:00:00.000Z"))
                   (Some 1730538000000)),
             log (Info_obtained "2024-11-02T09:00:00.000Z")
               (page_load
                  (Some (Encoding (issued "2024-11-02T09:00:00.000Z")))
                  eight_oclock))) as H
    by (vm_compute; reflexivity).
  split; [exact H |].
  exact (proj1 (proj2 (proj2
           (timer_callback_rearms_on_success configured Prefetch
              (page_load None eight_oclock)))) _ _ _ H).
Defined.

(** C3 does not hold as stated.  On an empty store one request goes out, and the
    reply is a complete record that expired in 2020: the record is
    returned and stored, and it does not pass the validity check. *)
Lemma fetched_record_may_be_invalid :
  exists s1 s2 v,
    getValidAwsCredentials configured (page_load None eight_oclock)
    = (Ok Await, s1)
    /\ network_calls s1 = 1%nat
    /\ getValidAwsCredentials_resume
         (Response 200 "OK" (Encoding (issued "2020-01-01T00:00:00.000Z"))) s1
       = (Ok v, s2)
    /\ localStorage s2 = JSON_stringify v
    /\ hasValidAwsCredentials s2 = (Ok false, s2).
Proof.
  do 3 eexists. split; [vm_compute; reflexivity |].
  split; [reflexivity |].
  split; [vm_compute; reflexivity |].
  split; vm_compute; reflexivity.
Qed.

(** C3, amended, on a store with a record that expires in an hour: a cache
    hit. *)
Lemma getValidAwsCredentials_hit_or_fetch_witness :
  let s := page_load (Some (Encoding (issued "2024-11-02T09:00:00.000Z")))
             eight_oclock in
  fst (hasValidAwsCredentials s) = Ok true
  /\ getValidAwsCredentials configured s
     = (Ok (Now (VJson (issued "2024-11-02T09:00:00.000Z"))), s).
Proof.
  cbv zeta. split; [vm_compute; reflexivity |].
  apply (getValidAwsCredentials_hit_or_fetch configured). vm_compute. reflexivity.
Defined.

(** C4 does not hold as stated.  A 200 reply whose body holds an expiration and
    none of the other three fields is not refused: the fetcher returns a
    record with the three fields undefined and stores it without them. *)
Lemma partial_record_is_persisted :
  fetchCredentialsFromApi_resume
    (Response 200 "OK" (Encoding (expiration_only "2024-11-02T09:00:00.000Z")))
    (page_load None eight_oclock)
  = (Ok (VObj [("accessKeyId", VUndefined); ("secretAccessKey", VUndefined);
               ("sessionToken", VUndefined);
               ("expiration", VDate (Some 1730538000000))]),
     log (Info_obtained "2024-11-02T09:00:00.000Z")
       (page_load
          (Some (Encoding (expiration_only "2024-11-02T09:00:00.000Z")))
          eight_oclock)).
Proof. vm_compute. reflexivity. Qed.

(** C4, amended, on that reply: the stored record fails the validity
    check. *)
Lemma fetch_accepts_partial_record_witness :
  let body := Encoding (expiration_only "2024-11-02T09:00:00.000Z") in
  let s := page_load None eight_oclock in
  response_ok 200 = true
  /\ fst (hasValidAwsCredentials
            (snd (fetchCredentialsFromApi_resume (Response 200 "OK" body) s)))
     = Ok false.
Proof.
  cbv zeta. split; [reflexivity |].
  pose proof (fetch_accepts_partial_record 200 "OK"
                (Encoding (expiration_only "2024-11-02T09:00:00.000Z"))
                (page_load None eight_oclock) eq_refl) as H.
  cbv zeta in H. destruct H as [H _].
  apply (H (expiration_only "2024-11-02T09:00:00.000Z") 1730538000000).
  - reflexivity.
  - discriminate.
  - vm_compute. reflexivity.
  - vm_compute. reflexivity.
Defined.

(** C5 does not hold as stated.  With no endpoint configured and a valid record
    in the store, [getValidAwsCredentials] does not fail: it returns the
    record. *)
Lemma unconfigured_cache_hit :
  unset (credentialVendingApiUrl unconfigured) = true
  /\ getValidAwsCredentials unconfigured
       (page_load (Some (Encoding (issued "2024-11-02T09:00:00.000Z")))
          eight_oclock)
     = (Ok (Now (VJson (issued "2024-11-02T09:00:00.000Z"))),
        page_load (Some (Encoding (issued "2024-11-02T09:00:00.000Z")))
          eight_oclock).
Proof. split; vm_compute; reflexivity. Qed.

(** C5, amended, on an empty store with no endpoint configured. *)
Lemma config_error_on_miss_witness :
  unset (credentialVendingApiUrl unconfigured) = true
  /\ getValidAwsCredentials unconfigured (page_load None eight_oclock)
     = (Throw config_error,
        log (Error_getValid config_error) (page_load None eight_oclock)).
Proof.
  split; [reflexivity |].
  apply (config_error_on_miss unconfigured (page_load None eight_oclock) eq_refl).
  vm_compute. reflexivity.
Defined.

(** C2 on a record that expires ten minutes from now. *)
Lemma hasValidAwsCredentials_correct_witness :
  let s := page_load (Some (Encoding (issued "2024-11-02T08:10:00.000Z")))
             eight_oclock in
  (exists t, Date_new (OptGet (VJson (issued "2024-11-02T08:10:00.000Z"))
                         "expiration") = Ok (Some t)
             /\ now s + 5 * 60 * 1000 < t)
  /\ fst (hasValidAwsCredentials s) = Ok true.
Proof.
  cbv zeta.
  assert (exists t, Date_new (OptGet (VJson (issued "2024-11-02T08:10:00.000Z"))
                                "expiration") = Ok (Some t)
                    /\ eight_oclock + 5 * 60 * 1000 < t) as H.
  { exists 1730535000000. split; [vm_compute; reflexivity |].
    unfold eight_oclock. lia. }
  split; [exact H |].
  destruct (hasValidAwsCredentials_correct
              (page_load (Some (Encoding (issued "2024-11-02T08:10:00.000Z")))
                 eight_oclock)) as (_ & _ & _ & _ & Hiff).
  apply (Hiff (issued "2024-11-02T08:10:00.000Z")); try reflexivity.
  exact H.
Defined.

(** C7 on the scenario of the specification: the record expires ten minutes
    from now, and the refresh is armed five minutes from now. *)
Lemma startCredentialRefreshTimer_delay_witness :
  let s := page_load (Some (Encoding (issued "2024-11-02T08:10:00.000Z")))
             eight_oclock in
  fst (startCredentialRefreshTimer s) = Ok tt
  /\ rearmed s (snd (startCredentialRefreshTimer s))
       {| timer_id := 1; timer_delay := Some (5 * 60 * 1000);
          timer_job := Refresh |}.
Proof.
  cbv zeta.
  destruct (startCredentialRefreshTimer_delay
              (page_load (Some (Encoding (issued "2024-11-02T08:10:00.000Z")))
                 eight_oclock)) as (H & _).
  apply (H 1730535000000); vm_compute; reflexivity.
Defined.

(** C6 on a page with the pre-fetch timer pending, timer 1: a call of
    [startCredentialRefreshTimer] cancels it and arms timer 2, a second call
    cancels timer 2 and arms timer 3; neither timer 1 nor timer 2 can run
    out any more, timer 3 can. *)
Lemma single_pending_timer_witness :
  let s := snd (startCredentialRefreshTimer (page_load None eight_oclock)) in
  let s1 := snd (startCredentialRefreshTimer s) in
  let s2 := snd (startCredentialRefreshTimer s1) in
  reachable configured s
  /\ map timer_id (timers s) = [1%positive]
  /\ fst (startCredentialRefreshTimer s) = Ok tt
  /\ map timer_id (timers s1) = [2%positive]
  /\ step configured s1 (Timeout 1) = None
  /\ fst (startCredentialRefreshTimer s1) = Ok tt
  /\ map timer_id (timers s2) = [3%positive]
  /\ credentialRefreshTimerId s2 = Some 3%positive
  /\ step configured s2 (Timeout 2) = None
  /\ step configured s2 (Timeout 3) <> None.
Proof.
  cbv zeta.
  assert (reachable configured
            (snd (startCredentialRefreshTimer (page_load None eight_oclock))))
    as H.
  { apply reachable_step
      with (s := page_load None eight_oclock)
           (e := Call_startCredentialRefreshTimer).
    - apply reachable_initial. repeat split; reflexivity.
    - reflexivity. }
  split; [exact H |].
  split; [reflexivity |].
  pose proof (single_pending_timer configured _ H) as T.
  cbv zeta in T. destruct T as (_ & Hcancel & Harm & _).
  destruct Harm
    as (t1 & t2 & Hok1 & Ht1 & Hid1 & _ & Hok2 & Ht2 & Hid2 & Hc2 & _ & Hn1 & Hn2).
  { intros e. vm_compute. discriminate. }
  split; [exact Hok1 |].
  split; [rewrite Ht1; cbn [map]; rewrite Hid1; reflexivity |].
  split.
  { apply (Hcancel {| timer_id := 1; timer_delay := Some 2000;
                      timer_job := Prefetch |}).
    left. reflexivity. }
  split; [exact Hok2 |].
  assert (timer_id t1 = 2%positive) as E1 by (rewrite Hid1; reflexivity).
  assert (timer_id t2 = 3%positive) as E2 by (rewrite Hid2; reflexivity).
  rewrite E1 in Hn1. rewrite E2 in Hc2, Hn2.
  split; [rewrite Ht2; cbn [map]; rewrite E2; reflexivity |].
  split; [exact Hc2 |].
  split; [exact Hn1 | exact Hn2].
Defined.

(** C9 on a page with the pre-fetch timer pending. *)
Lemma logout_stops_refresh_witness :
  let s := snd (startCredentialRefreshTimer (page_load None eight_oclock)) in
  reachable configured s
  /\ timers s <> []
  /\ timers (snd (logout s)) = []
  /\ localStorage (snd (logout s)) = None.
Proof.
  cbv zeta.
  assert (reachable configured
            (snd (startCredentialRefreshTimer (page_load None eight_oclock))))
    as H.
  { apply reachable_step
      with (s := page_load None eight_oclock)
           (e := Call_startCredentialRefreshTimer).
    - apply reachable_initial. repeat split; reflexivity.
    - reflexivity. }
  split; [exact H |].
  split; [discriminate |].
  pose proof (logout_stops_refresh configured _ H) as L.
  cbv zeta in L. destruct L as (_ & Hl & _ & Ht & _ & _).
  split; [exact Ht | exact Hl].
Defined.

(** C8 on a page with a valid record and the refresh timer pending: the
    timer runs out, the record is deleted and a request goes out. *)
Lemma refresh_fire_deletes_first_witness :
  let s := snd (startCredentialRefreshTimer
                  (page_load
                     (Some (Encoding (issued "2024-11-02T09:00:00.000Z")))
                     eight_oclock)) in
  fst (hasValidAwsCredentials s) = Ok true
  /\ exists t s',
       find_timer 1 s = Some t
       /\ timer_job t = Refresh
       /\ step configured s (Timeout 1) = Some s'
       /\ localStorage s' = None
       /\ network_calls s' = 1%nat.
Proof.
  cbv zeta. split; [vm_compute; reflexivity |].
  eexists.
  edestruct (refresh_fire_deletes_first configured
               (snd (startCredentialRefreshTimer
                       (page_load
                          (Some (Encoding (issued "2024-11-02T09:00:00.000Z")))
                          eight_oclock))) 1) as (s' & Hstep & Hrefresh & _).
  - vm_compute. reflexivity.
  - exists s'. split; [reflexivity |]. split; [reflexivity |].
    split; [exact Hstep |].
    destruct (Hrefresh eq_refl) as (Hl & Hn & _).
    split; [exact Hl |]. apply Hn. reflexivity.
Defined.

(** C10 on a fetch and the cache hit that follows it. *)
Lemma cached_and_fetched_shapes_witness :
  exists v s1 v',
    getValidAwsCredentials_resume
      (Response 200 "OK" (Encoding (issued "2024-11-02T09:00:00.000Z")))
      (page_load None eight_oclock) = (Ok v, s1)
    /\ getValidAwsCredentials configured s1 = (Ok (Now v'), s1)
    /\ Get v "expiration" = Ok (VDate (Some 1730538000000))
    /\ Get v' "expiration" = Ok (VJson (JStr "2024-11-02T09:00:00.000Z"))
    /\ v' <> v.
Proof.
  do 3 eexists.
  split; [vm_compute; reflexivity |].
  split; [vm_compute; reflexivity |].
  split; [reflexivity |].
  split; [reflexivity |].
  edestruct (cached_and_fetched_shapes configured
               (Response 200 "OK" (Encoding (issued "2024-11-02T09:00:00.000Z")))
               (page_load None eight_oclock)) as (t & _ & H).
  - vm_compute. reflexivity.
  - eapply H; [reflexivity | vm_compute; reflexivity].
Defined.

(** ** The further properties on sample inputs *)

(** X1 on a record that expires at nine o'clock. *)
Lemma stored_record_reads_back_witness :
  let data := issued "2024-11-02T09:00:00.000Z" in
  let s := page_load None eight_oclock in
  in_time_range 1730538000000
  /\ exists item read,
       setAwsCredentials (credentials_of (VJson data) (Some 1730538000000)) s
       = (Ok tt, set_localStorage (Some item) s)
       /\ getAwsCredentialsFromStorage (set_localStorage (Some item) s)
          = (Ok read, set_localStorage (Some item) s)
       /\ member read "accessKeyId"
          = member (credentials_of (VJson data) (Some 1730538000000)) "accessKeyId"
       /\ member read "secretAccessKey"
          = member (credentials_of (VJson data) (Some 1730538000000))
              "secretAccessKey"
       /\ member read "sessionToken"
          = member (credentials_of (VJson data) (Some 1730538000000)) "sessionToken"
       /\ Date_new (member read "expiration")
          = Date_new (member (credentials_of (VJson data) (Some 1730538000000))
                        "expiration")
       /\ Date_new (member read "expiration") = Ok (Some 1730538000000).
Proof.
  cbv zeta.
  assert (in_time_range 1730538000000) as H
    by (unfold in_time_range, maxTime; lia).
  split; [exact H |].
  exact (stored_record_reads_back (issued "2024-11-02T09:00:00.000Z")
           1730538000000 (page_load None eight_oclock) H).
Defined.

(** X3 on a record that expires at ten past eight, one minute on. *)
Lemma validity_only_expires_witness :
  let s := page_load (Some (Encoding (issued "2024-11-02T08:10:00.000Z")))
             eight_oclock in
  0 <= 60000
  /\ fst (hasValidAwsCredentials s) = Ok true
  /\ fst (hasValidAwsCredentials (set_now (now s + 60000) s)) = Ok true.
Proof.
  cbv zeta. split; [lia |]. split; [vm_compute; reflexivity |].
  pose proof (validity_only_expires
                (page_load (Some (Encoding (issued "2024-11-02T08:10:00.000Z")))
                   eight_oclock) 60000 ltac:(lia)) as H.
  cbv zeta in H. destruct H as (_ & _ & H).
  apply (H 1730535000000).
  - vm_compute. reflexivity.
  - vm_compute. reflexivity.
  - vm_compute. reflexivity.
Defined.

(** X7 on a stored expiration that is an object with a member named
    toString: the call throws, and the pending timer is gone. *)
Lemma startCredentialRefreshTimer_throws_witness :
  let s := snd (startCredentialRefreshTimer (page_load None eight_oclock)) in
  let s1 := set_localStorage
              (Some (Encoding (record_expiring (JObj [("toString", JNum 1)])))) s in
  single_timer s1
  /\ timers s1 <> []
  /\ fst (startCredentialRefreshTimer s1) = Throw TypeError
  /\ timers (snd (startCredentialRefreshTimer s1)) = [].
Proof.
  cbv zeta.
  assert (fst (startCredentialRefreshTimer
                 (set_localStorage
                    (Some (Encoding (record_expiring (JObj [("toString", JNum 1)]))))
                    (snd (startCredentialRefreshTimer
                            (page_load None eight_oclock)))))
          = Throw TypeError) as H by (vm_compute; reflexivity).
  split; [vm_compute; reflexivity |].
  split; [discriminate |].
  split; [exact H |].
  destruct (startCredentialRefreshTimer_throws
              (set_localStorage
                 (Some (Encoding (record_expiring (JObj [("toString", JNum 1)]))))
                 (snd (startCredentialRefreshTimer
                         (page_load None eight_oclock))))
              TypeError) as [_ Hc].
  destruct (Hc H) as (_ & _ & Hempty).
  apply Hempty. vm_compute. reflexivity.
Defined.

(** X8 on a stored expiration that is no date. *)
Lemma unparsable_expiration_arms_NaN_witness :
  let s := page_load (Some (Encoding (record_expiring (JStr "tomorrow"))))
             eight_oclock in
  truthy (OptGet (stored_value s) "expiration") = true
  /\ Date_new (OptGet (stored_value s) "expiration") = Ok NaN
  /\ timers (snd (startCredentialRefreshTimer s))
     = [{| timer_id := 1; timer_delay := NaN; timer_job := Refresh |}].
Proof.
  cbv zeta.
  split; [reflexivity |]. split; [vm_compute; reflexivity |].
  destruct (unparsable_expiration_arms_NaN
              (page_load (Some (Encoding (record_expiring (JStr "tomorrow"))))
                 eight_oclock)) as (_ & (Ht & _) & _).
  - reflexivity.
  - vm_compute. reflexivity.
  - exact Ht.
Defined.

(** X10 on a page that has armed the refresh for a record already past its
    five-minute mark: the delay is 0. *)
Lemma pending_delays_are_not_negative_witness :
  let s := snd (startCredentialRefreshTimer
                  (page_load
                     (Some (Encoding (issued "2024-11-02T08:01:00.000Z")))
                     eight_oclock)) in
  let t := {| timer_id := 1; timer_delay := Some 0; timer_job := Refresh |} in
  reachable configured s /\ In t (timers s) /\ delay_ok t.
Proof.
  cbv zeta.
  assert (reachable configured
            (snd (startCredentialRefreshTimer
                    (page_load
                       (Some (Encoding (issued "2024-11-02T08:01:00.000Z")))
                       eight_oclock)))) as H.
  { apply reachable_step
      with (s := page_load (Some (Encoding (issued "2024-11-02T08:01:00.000Z")))
                   eight_oclock)
           (e := Call_startCredentialRefreshTimer).
    - apply reachable_initial. repeat split; reflexivity.
    - reflexivity. }
  assert (In {| timer_id := 1; timer_delay := Some 0; timer_job := Refresh |}
            (timers (snd (startCredentialRefreshTimer
                            (page_load
                               (Some (Encoding (issued "2024-11-02T08:01:00.000Z")))
                               eight_oclock))))) as Hin
    by (vm_compute; left; reflexivity).
  split; [exact H |]. split; [exact Hin |].
  exact (pending_delays_are_not_negative configured _ H _ Hin).
Defined.

(** X11 on a page that has just loaded with an empty store. *)
Lemma concurrent_misses_send_two_requests_witness :
  let s := page_load None eight_oclock in
  fst (hasValidAwsCredentials s) = Ok false
  /\ unset (credentialVendingApiUrl configured) = false
  /\ exists s2,
       run configured s
         [Call_getValidAwsCredentials; Call_getValidAwsCredentials] = Some s2
       /\ network_calls s2 = S (S (network_calls s))
       /\ requests s2 = (requests s ++ [ByCaller; ByCaller])%list
       /\ localStorage s2 = localStorage s.
Proof.
  cbv zeta.
  split; [reflexivity |]. split; [reflexivity |].
  exact (proj1 (concurrent_misses_send_two_requests configured
                  (page_load None eight_oclock) eq_refl eq_refl)).
Defined.

(** X12 on a page that has just loaded with an empty store, through a
    pre-fetch that gets a record. *)
Lemma module_written_store_is_kept_witness :
  let s := page_load None eight_oclock in
  let es := [Call_startCredentialRefreshTimer; Timeout 1;
             Reply 0 (Response 200 "OK"
                        (Encoding (issued "2024-11-02T09:00:00.000Z")))] in
  module_written s
  /\ exists s',
       run configured s es = Some s'
       /\ localStorage s' = Some (Encoding (issued "2024-11-02T09:00:00.000Z"))
       /\ module_written s'.
Proof.
  cbv zeta.
  assert (module_written (page_load None eight_oclock)) as H
    by (left; reflexivity).
  split; [exact H |].
  eexists. split; [vm_compute; reflexivity |].
  split; [reflexivity |].
  apply (proj1 (module_written_store_is_kept configured
                  (page_load None eight_oclock) H)
           [Call_startCredentialRefreshTimer; Timeout 1;
            Reply 0 (Response 200 "OK"
                       (Encoding (issued "2024-11-02T09:00:00.000Z")))]).
  vm_compute. reflexivity.
Defined.
